(** * BoxHandle: the selection box handle of mcedit2

    A shallow embedding of [src/mcedit2/handles/boxhandle.py].

    Conventions of the embedding.
    - Python integers are [Z]; Python floats are idealised as exact
      rationals [Q] (no rounding, no infinities, no NaN).
    - [None] is the [None] of an [option].
    - An exception is the [Raise] of an [outcome]; the handle's fields keep
      whatever was written to them before the exception.
    - Qt signals are recorded, in emission order, in the [emitted] log.
    - The collaborators that live in other modules of the repository
      ([boxFaceUnderCursor], [Ray.intersectPlane]) are fields of the
      [Collaborators] class. *)

From Stdlib Require Import ZArith QArith Qround Qabs List Bool Lia.
Import ListNotations.

Open Scope Z_scope.

(** ** Exceptions *)

Inductive exn : Type :=
| AssertionError
| TypeError
| AttributeError
| IndexError
| ZeroDivisionError.

Inductive outcome (A : Type) : Type :=
| Ok (a : A)
| Raise (e : exn).

Arguments Ok {A} a.
Arguments Raise {A} e.

Definition obind {A B} (m : outcome A) (k : A -> outcome B) : outcome B :=
  match m with
  | Ok a => k a
  | Raise e => Raise e
  end.

Declare Scope outcome_scope.
Delimit Scope outcome_scope with outcome.
Notation "'let?' x ':=' m 'in' k" := (obind m (fun x => k))
  (at level 10, x name, m at level 100, k at level 200) : outcome_scope.

(** An attribute that is [None] where the code needs a number, a box or a
    point: the operation on it raises [e]. *)
Definition unwrap {A} (e : exn) (o : option A) : outcome A :=
  match o with
  | Some a => Ok a
  | None => Raise e
  end.

(** ** Numbers *)

(** Truth value of an integer and of a float: zero is false. *)
Definition truthyZ (n : Z) : bool := negb (n =? 0).
Definition truthyQ (x : Q) : bool := negb (Qeq_bool x 0).

(** [a > b] on floats. *)
Definition Qgtb (a b : Q) : bool := negb (Qle_bool a b).

(** [a / b] with [from __future__ import division]. *)
Definition truediv (a b : Q) : outcome Q :=
  if Qeq_bool b 0 then Raise ZeroDivisionError else Ok (a / b)%Q.

(** [x or y] on floats. *)
Definition orQ (x y : Q) : Q := if truthyQ x then x else y.

(** A float [p] for which the source's sum [p + 0.5] involves no rounding,
    so that the float sum is the exact one: [p] is [z / 2^n] with
    [|z| < 2^52] and [0 <= n <= 53], and then both [p] and [p + 0.5] are
    binary64 numbers. *)
Definition half_sum_exact (p : Q) : Prop :=
  exists z n,
    Z.abs z < 2 ^ 52 /\ 0 <= n <= 53 /\
    (p == inject_Z z / inject_Z (2 ^ n))%Q.

(** ** Vectors and three-element lists

    [Vector] is the (x, y, z) tuple of mceditlib; the lists
    [list(box.origin)], [list(box.size)], [[1, 1, 1]] and [[0, 0, 0]] of
    the source have three elements too and are vectors here. *)

Record Vector (A : Type) : Type := mkVector { vx : A; vy : A; vz : A }.

Arguments mkVector {A} vx vy vz.
Arguments vx {A} v.
Arguments vy {A} v.
Arguments vz {A} v.

(** [v[i]]: indices 0..2, and -3..-1 counted from the end. *)
Definition getitem {A} (v : Vector A) (i : Z) : outcome A :=
  match i with
  | 0 | -3 => Ok (vx v)
  | 1 | -2 => Ok (vy v)
  | 2 | -1 => Ok (vz v)
  | _ => Raise IndexError
  end.

(** [v[i] = a] on a list. *)
Definition setitem {A} (v : Vector A) (i : Z) (a : A) : outcome (Vector A) :=
  match i with
  | 0 | -3 => Ok (mkVector a (vy v) (vz v))
  | 1 | -2 => Ok (mkVector (vx v) a (vz v))
  | 2 | -1 => Ok (mkVector (vx v) (vy v) a)
  | _ => Raise IndexError
  end.

Definition vmap {A B} (f : A -> B) (v : Vector A) : Vector B :=
  mkVector (f (vx v)) (f (vy v)) (f (vz v)).

Definition vzip {A B C} (f : A -> B -> C) (u : Vector A) (v : Vector B)
  : Vector C :=
  mkVector (f (vx u) (vx v)) (f (vy u) (vy v)) (f (vz u) (vz v)).

(** [Vector.abs()] *)
Definition vabs (v : Vector Q) : Vector Q := vmap Qabs v.
(** [vector * scale] *)
Definition vscale (v : Vector Q) (s : Q) : Vector Q :=
  vmap (fun c => (c * s)%Q) v.
(** [u + v] on float vectors and on integer vectors *)
Definition vaddQ (u v : Vector Q) : Vector Q := vzip Qplus u v.
Definition vaddZ (u v : Vector Z) : Vector Z := vzip Z.add u v.
(** [Vector.intfloor()] *)
Definition intfloor (v : Vector Q) : Vector Z := vmap Qfloor v.

(** Component-wise equality of float vectors as numbers. *)
Definition veqQ (u v : Vector Q) : Prop :=
  (vx u == vx v)%Q /\ (vy u == vy v)%Q /\ (vz u == vz v)%Q.

(** ** Rays and faces *)

Record Ray : Type := mkRay { nearPoint : Vector Q; normal : Vector Q }.

(** A face is an integer 0..5; [face & 1] is the side and [face >> 1] the
    axis. *)
Definition Face : Type := Z.

(** Modelled from the spec: [Face.dimension] of mceditlib.faces, "the axis
    it is perpendicular to", which the spec gives as [face >> 1]. *)
Definition dimension (face : Face) : Z := Z.shiftr face 1.

(** Modelled from the spec: the constant [faces.FaceYIncreasing] of
    mceditlib.faces, a face of axis 1 (Y) whose side bit is 0. *)
Definition FaceYIncreasing : Face := 2.

(** ** Boxes *)

(** Modelled from the spec: [BoundingBox] of mceditlib.selection, an integer
    origin and an integer size; the constructor copies its arguments; two
    boxes are equal iff origin and size match component-wise; a box is
    true as a condition. *)
Record BoundingBox : Type := mkBoundingBox
  { origin : Vector Z; size : Vector Z }.

Definition Vector_eqb (u v : Vector Z) : bool :=
  (vx u =? vx v) && (vy u =? vy v) && (vz u =? vz v).

Definition BoundingBox_eqb (a b : BoundingBox) : bool :=
  Vector_eqb (origin a) (origin b) && Vector_eqb (size a) (size b).

(** [a != b] where either may be [None]. *)
Definition bounds_ne (a b : option BoundingBox) : bool :=
  match a, b with
  | Some x, Some y => negb (BoundingBox_eqb x y)
  | None, None => false
  | _, _ => true
  end.

Definition maximum (b : BoundingBox) : Vector Z :=
  vaddZ (origin b) (size b).

(** Modelled from the spec: [BoundingBox.union], "the smallest box
    containing both": the least origin and the greatest maximum on each
    axis. *)
Definition union (a b : BoundingBox) : BoundingBox :=
  let lo := vzip Z.min (origin a) (origin b) in
  let hi := vzip Z.max (maximum a) (maximum b) in
  mkBoundingBox lo (vzip Z.sub hi lo).

Definition nonneg_size (b : BoundingBox) : Prop :=
  0 <= vx (size b) /\ 0 <= vy (size b) /\ 0 <= vz (size b).

(** ** The render nodes owned by the handle *)

Module SelectionBoxNode.
Record t : Type := mk
  { selectionBox : option BoundingBox; filled : bool }.
End SelectionBoxNode.

Module SelectionFaceNode.
Record t : Type := mk
  { selectionBox : option BoundingBox;
    visible : bool;
    face : option Face;
    color : Vector Q }.
End SelectionFaceNode.

(** ** Events and signals *)

(** What the handle reads of a mouse event: [event.ray],
    [event.modifiers()], [event.view.cameraVector] and
    [event.blockPosition]. *)
Record MouseEvent : Type := mkMouseEvent
  { ray : Ray;
    modifiers : Z;
    cameraVector : Vector Q;
    blockPosition : Vector Z }.

Inductive Signal : Type :=
| boundsChanged (box : option BoundingBox)
| boundsChangedDone (box : option BoundingBox) (isNewSelection : bool).

(** ** The handle *)

Record BoxHandle : Type := mkBoxHandle
  { dragResizeFace : option Face;
    dragResizeDimension : option Z;
    dragResizePosition : option Q;
    dragStartPoint : option (Vector Z);
    dragStartFace : option Face;
    oldBounds : option BoundingBox;
    hiliteFace : bool;
    _resizable : bool;
    modifier : Z;
    isMoving : bool;
    boxNode : SelectionBoxNode.t;
    faceDragNode : SelectionFaceNode.t }.

(** [QtCore.Qt.ShiftModifier] *)
Definition ShiftModifier : Z := 0x02000000.

Definition _moveFaceColor : Vector Q := mkVector (3 # 10)%Q (9 # 10)%Q (3 # 10)%Q.
Definition _resizeFaceColor : Vector Q := mkVector (3 # 10)%Q (6 # 10)%Q (9 # 10)%Q.

(** [__init__]: the class attributes, and the two child nodes as their
    constructors (in mcedit2.rendering.selection) leave them, the box node
    with [filled = False]. *)
Definition __init__ (box0 : SelectionBoxNode.t) (face0 : SelectionFaceNode.t)
  : BoxHandle :=
  {| dragResizeFace := None;
     dragResizeDimension := None;
     dragResizePosition := None;
     dragStartPoint := None;
     dragStartFace := None;
     oldBounds := None;
     hiliteFace := true;
     _resizable := true;
     modifier := ShiftModifier;
     isMoving := false;
     boxNode := SelectionBoxNode.mk (SelectionBoxNode.selectionBox box0) false;
     faceDragNode := face0 |}.

(** Attribute assignments. *)

Definition with_dragResizeFace (v : option Face) (h : BoxHandle) : BoxHandle :=
  mkBoxHandle v (dragResizeDimension h) (dragResizePosition h)
    (dragStartPoint h) (dragStartFace h) (oldBounds h) (hiliteFace h)
    (_resizable h) (modifier h) (isMoving h) (boxNode h) (faceDragNode h).

Definition with_dragResizeDimension (v : option Z) (h : BoxHandle) : BoxHandle :=
  mkBoxHandle (dragResizeFace h) v (dragResizePosition h)
    (dragStartPoint h) (dragStartFace h) (oldBounds h) (hiliteFace h)
    (_resizable h) (modifier h) (isMoving h) (boxNode h) (faceDragNode h).

Definition with_dragResizePosition (v : option Q) (h : BoxHandle) : BoxHandle :=
  mkBoxHandle (dragResizeFace h) (dragResizeDimension h) v
    (dragStartPoint h) (dragStartFace h) (oldBounds h) (hiliteFace h)
    (_resizable h) (modifier h) (isMoving h) (boxNode h) (faceDragNode h).

Definition with_dragStartPoint (v : option (Vector Z)) (h : BoxHandle)
  : BoxHandle :=
  mkBoxHandle (dragResizeFace h) (dragResizeDimension h) (dragResizePosition h)
    v (dragStartFace h) (oldBounds h) (hiliteFace h)
    (_resizable h) (modifier h) (isMoving h) (boxNode h) (faceDragNode h).

Definition with_dragStartFace (v : option Face) (h : BoxHandle) : BoxHandle :=
  mkBoxHandle (dragResizeFace h) (dragResizeDimension h) (dragResizePosition h)
    (dragStartPoint h) v (oldBounds h) (hiliteFace h)
    (_resizable h) (modifier h) (isMoving h) (boxNode h) (faceDragNode h).

Definition with_oldBounds (v : option BoundingBox) (h : BoxHandle) : BoxHandle :=
  mkBoxHandle (dragResizeFace h) (dragResizeDimension h) (dragResizePosition h)
    (dragStartPoint h) (dragStartFace h) v (hiliteFace h)
    (_resizable h) (modifier h) (isMoving h) (boxNode h) (faceDragNode h).

Definition with__resizable (v : bool) (h : BoxHandle) : BoxHandle :=
  mkBoxHandle (dragResizeFace h) (dragResizeDimension h) (dragResizePosition h)
    (dragStartPoint h) (dragStartFace h) (oldBounds h) (hiliteFace h)
    v (modifier h) (isMoving h) (boxNode h) (faceDragNode h).

Definition with_boxNode (v : SelectionBoxNode.t) (h : BoxHandle) : BoxHandle :=
  mkBoxHandle (dragResizeFace h) (dragResizeDimension h) (dragResizePosition h)
    (dragStartPoint h) (dragStartFace h) (oldBounds h) (hiliteFace h)
    (_resizable h) (modifier h) (isMoving h) v (faceDragNode h).

Definition with_faceDragNode (v : SelectionFaceNode.t) (h : BoxHandle)
  : BoxHandle :=
  mkBoxHandle (dragResizeFace h) (dragResizeDimension h) (dragResizePosition h)
    (dragStartPoint h) (dragStartFace h) (oldBounds h) (hiliteFace h)
    (_resizable h) (modifier h) (isMoving h) (boxNode h) v.

(** [self.boxNode.selectionBox = box] *)
Definition boxNode_set_selectionBox (box : option BoundingBox) (h : BoxHandle)
  : BoxHandle :=
  with_boxNode
    (SelectionBoxNode.mk box (SelectionBoxNode.filled (boxNode h))) h.

(** [self.faceDragNode.selectionBox = box] *)
Definition faceDragNode_set_selectionBox (box : option BoundingBox)
  (h : BoxHandle) : BoxHandle :=
  let n := faceDragNode h in
  with_faceDragNode
    (SelectionFaceNode.mk box (SelectionFaceNode.visible n)
       (SelectionFaceNode.face n) (SelectionFaceNode.color n)) h.

(** [self.faceDragNode.visible = v] *)
Definition faceDragNode_set_visible (v : bool) (h : BoxHandle) : BoxHandle :=
  let n := faceDragNode h in
  with_faceDragNode
    (SelectionFaceNode.mk (SelectionFaceNode.selectionBox n) v
       (SelectionFaceNode.face n) (SelectionFaceNode.color n)) h.

(** [self.faceDragNode.face = f] *)
Definition faceDragNode_set_face (f : option Face) (h : BoxHandle) : BoxHandle :=
  let n := faceDragNode h in
  with_faceDragNode
    (SelectionFaceNode.mk (SelectionFaceNode.selectionBox n)
       (SelectionFaceNode.visible n) f (SelectionFaceNode.color n)) h.

(** [self.faceDragNode.color = c] *)
Definition faceDragNode_set_color (c : Vector Q) (h : BoxHandle) : BoxHandle :=
  let n := faceDragNode h in
  with_faceDragNode
    (SelectionFaceNode.mk (SelectionFaceNode.selectionBox n)
       (SelectionFaceNode.visible n) (SelectionFaceNode.face n) c) h.

(** ** The monad of the methods: the handle, the signals emitted so far,
    and exceptions *)

Record World : Type := mkWorld { self : BoxHandle; emitted : list Signal }.

Definition M (A : Type) : Type := World -> outcome A * World.

Definition ret {A} (a : A) : M A := fun w => (Ok a, w).

Definition bind {A B} (m : M A) (k : A -> M B) : M B :=
  fun w =>
    match m w with
    | (Ok a, w') => k a w'
    | (Raise e, w') => (Raise e, w')
    end.

Declare Scope handle_scope.
Delimit Scope handle_scope with handle.
Notation "x <- m ;; k" := (bind m (fun x => k))
  (at level 61, m at next level, right associativity) : handle_scope.
Notation "m ;; k" := (bind m (fun _ => k))
  (at level 61, right associativity) : handle_scope.

(** Read an attribute of [self]. *)
Definition gets {A} (f : BoxHandle -> A) : M A := fun w => (Ok (f (self w)), w).

(** Assign attributes of [self]. *)
Definition modify (f : BoxHandle -> BoxHandle) : M unit :=
  fun w => (Ok tt, mkWorld (f (self w)) (emitted w)).

(** [signal.emit(...)] *)
Definition emit (s : Signal) : M unit :=
  fun w => (Ok tt, mkWorld (self w) (emitted w ++ [s])).

(** A computation that reads [self] and may raise. *)
Definition try {A} (f : BoxHandle -> outcome A) : M A :=
  fun w => (f (self w), w).

(** ** Collaborators from other modules of the repository *)

(** [boxFaceUnderCursor(box, ray)] of mcedit2.rendering.selection returns
    a point and the face of [box] that the ray hits, or no face;
    [ray.intersectPlane(dim, pos)] of mcedit2.util.geometry returns the
    point where the ray crosses the plane at [pos] on axis [dim]. *)
Class Collaborators : Type :=
  { boxFaceUnderCursor : option BoundingBox -> Ray -> Vector Q * option Face;
    intersectPlane : Ray -> Z -> Z -> outcome (Vector Q) }.

(** Modelled from the spec: [intersectPlane] as section 4.1 of the spec
    gives it, the epsilon 0.0001 standing in for a zero component. *)
Definition intersectPlane_spec (r : Ray) (dim pos : Z) : outcome (Vector Q) :=
  (let? n := getitem (nearPoint r) dim in
   let distance := (inject_Z pos - n)%Q in
   let? d := getitem (normal r) dim in
   let? scale := truediv distance (orQ d (1 # 10000)) in
   Ok (vaddQ (vscale (normal r) scale) (nearPoint r)))%outcome.

(** ** Properties *)

(** [bounds] (getter) *)
Definition bounds (h : BoxHandle) : option BoundingBox :=
  SelectionBoxNode.selectionBox (boxNode h).

(** [bounds] (setter) *)
Definition set_bounds (box : option BoundingBox) : M unit :=
  (cur <- gets bounds ;;
   if bounds_ne box cur then
     modify (boxNode_set_selectionBox box) ;;
     modify (faceDragNode_set_selectionBox box) ;;
     emit (boundsChanged box)
   else ret tt)%handle.

Definition moveModifierDown (h : BoxHandle) (event : MouseEvent) : Z :=
  Z.land (modifiers event) (modifier h).

(** [resizable] (getter) *)
Definition resizable (h : BoxHandle) : bool := _resizable h.

(** The truth value of [self.bounds]: false for [None], true for a box. *)
Definition truthy_bounds (b : option BoundingBox) : bool :=
  match b with
  | Some _ => true
  | None => false
  end.

(** [resizable] (setter): [assert value or self.bounds] *)
Definition set_resizable (value : bool) : M unit :=
  (b <- gets bounds ;;
   if value || truthy_bounds b then
     modify (with__resizable value)
   else
     fun w => (Raise AssertionError, w))%handle.

(** ** Resize helpers *)

Definition dragResizePoint (h : BoxHandle) (r : Ray) : outcome (Vector Q) :=
  (let nearPoint := nearPoint r in
   let normal := normal r in
   let? dim := unwrap TypeError (dragResizeDimension h) in
   let? n := getitem nearPoint dim in
   let? pos := unwrap TypeError (dragResizePosition h) in
   let distance := (pos - n)%Q in
   let? d := getitem normal dim in
   let? scale := truediv distance (orQ d (1 # 10000)) in
   let point := vaddQ (vscale normal scale) nearPoint in
   Ok point)%outcome.

Definition boxFromDragResize (h : BoxHandle) (box : option BoundingBox)
  (r : Ray) : outcome BoundingBox :=
  (let? point := dragResizePoint h r in
   let? face := unwrap TypeError (dragResizeFace h) in
   let side := Z.land face 1 in
   let dragdim := Z.shiftr face 1 in
   let? b := unwrap AttributeError box in
   let origin := origin b in
   let size := size b in
   let? origin :=
     if truthyZ side then
       let? o := getitem origin dragdim in
       let? s := getitem size dragdim in
       setitem origin dragdim (o + s)
     else Ok origin in
   let? size := setitem size dragdim 0 in
   let otherSide := mkBoundingBox origin size in
   let? p := getitem point dragdim in
   let? origin := setitem origin dragdim (Qfloor (p + (1 # 2))) in
   let thisSide := mkBoundingBox origin size in
   Ok (union thisSide otherSide))%outcome.

Section Methods.
Context {collab : Collaborators}.

Definition boxFromDragSelect (h : BoxHandle) (r : Ray) : outcome BoundingBox :=
  (let point := dragStartPoint h in
   let? face := unwrap TypeError (dragStartFace h) in
   let size := mkVector 1 1 1 in
   let dim := Z.shiftr face 1 in
   let? size := setitem size dim 0 in
   let s := mkVector 0 0 0 in
   let? point := unwrap TypeError point in
   let? point :=
     if Z.land face 1 =? 0 then
       let? s := setitem s dim 1 in
       Ok (vaddZ point s)
     else Ok point in
   let startBox := mkBoundingBox point size in
   let? pos := getitem point dim in
   let? endPoint := intersectPlane r dim pos in
   let endBox := mkBoundingBox (intfloor endPoint) size in
   Ok (union startBox endBox))%outcome.

(** ** Resize *)

Definition beginResize (event : MouseEvent) : M (option bool) :=
  (b <- gets bounds ;;
   let (point, face) := boxFaceUnderCursor b (ray event) in
   match face with
   | Some face =>
       modify (with_dragResizeFace (Some face)) ;;
       let dim := (dimension face + 1) mod 3 in
       let dim1 := (dim + 1) mod 3 in
       let vector := vabs (cameraVector event) in
       v1 <- try (fun _ => getitem vector dim1) ;;
       v0 <- try (fun _ => getitem vector dim) ;;
       let dim := if Qgtb v1 v0 then dim1 else dim in
       modify (with_dragResizeDimension (Some dim)) ;;
       p <- try (fun h =>
                   let? d := unwrap TypeError (dragResizeDimension h) in
                   getitem point d)%outcome ;;
       modify (with_dragResizePosition (Some p)) ;;
       modify (fun h => with_oldBounds (bounds h) h) ;;
       ret (Some true)
   | None =>
       set_bounds None ;;
       ret None
   end)%handle.

Definition continueResize (event : MouseEvent) : M unit :=
  (newBox <- try (fun h => boxFromDragResize h (oldBounds h) (ray event)) ;;
   modify (faceDragNode_set_selectionBox (Some newBox)) ;;
   modify (faceDragNode_set_visible true) ;;
   newBox <- try (fun h => boxFromDragResize h (oldBounds h) (ray event)) ;;
   set_bounds (Some newBox))%handle.

Definition endResize (event : MouseEvent) : M unit :=
  (newBox <- try (fun h => boxFromDragResize h (oldBounds h) (ray event)) ;;
   set_bounds (Some newBox) ;;
   modify (with_oldBounds None) ;;
   modify (with_dragResizeFace None) ;;
   modify (faceDragNode_set_visible false) ;;
   b <- gets bounds ;;
   emit (boundsChangedDone b false))%handle.

(** ** Create *)

Definition beginCreate (event : MouseEvent) : M unit :=
  (modify (with_dragStartPoint (Some (blockPosition event))) ;;
   modify (with_dragStartFace (Some FaceYIncreasing)))%handle.

Definition continueCreate (event : MouseEvent) : M unit :=
  (newBox <- try (fun h => boxFromDragSelect h (ray event)) ;;
   set_bounds (Some newBox))%handle.

Definition endCreate (event : MouseEvent) : M unit :=
  (newBox <- try (fun h => boxFromDragSelect h (ray event)) ;;
   modify (with_dragStartPoint None) ;;
   set_bounds (Some newBox) ;;
   emit (boundsChangedDone (Some newBox) true))%handle.

(** ** Move *)

Definition beginMove (event : MouseEvent) : M unit := ret tt.
Definition continueMove (event : MouseEvent) : M unit := ret tt.
Definition endMove (event : MouseEvent) : M unit := ret tt.

(** ** Update *)

Definition updateMouseHover (event : MouseEvent) : M unit :=
  (b <- gets bounds ;;
   match b with
   | None => ret tt
   | Some _ =>
       let (point, face) := boxFaceUnderCursor b (ray event) in
       match face with
       | Some face =>
           modify (faceDragNode_set_visible true) ;;
           modify (faceDragNode_set_face (Some face)) ;;
           modify (fun h => faceDragNode_set_selectionBox (bounds h) h)
       | None =>
           modify (faceDragNode_set_visible false)
       end ;;
       md <- gets (fun h => moveModifierDown h event) ;;
       if truthyZ md then
         modify (faceDragNode_set_color _moveFaceColor)
       else
         modify (faceDragNode_set_color _resizeFaceColor)
   end)%handle.

(** ** Mouse events *)

(** [self.resizable and not self.moveModifierDown(event)] *)
Definition resizing (h : BoxHandle) (event : MouseEvent) : bool :=
  resizable h && negb (truthyZ (moveModifierDown h event)).

Definition mousePress (event : MouseEvent) : M unit :=
  (go <- gets (fun h => resizing h event) ;;
   if go then
     b <- gets bounds ;;
     match b with
     | Some _ => beginResize event ;; ret tt
     | None => ret tt
     end ;;
     b <- gets bounds ;;
     match b with
     | None => beginCreate event
     | Some _ => ret tt
     end
   else
     beginMove event)%handle.

Definition mouseMove (event : MouseEvent) : M unit :=
  (go <- gets (fun h => resizing h event) ;;
   (if go then
      sp <- gets dragStartPoint ;;
      match sp with
      | Some _ => continueCreate event
      | None =>
          b <- gets bounds ;;
          match b with
          | Some _ =>
              f <- gets dragResizeFace ;;
              match f with
              | Some _ => continueResize event
              | None => ret tt
              end
          | None => ret tt
          end
      end
    else
      continueMove event) ;;
   hl <- gets hiliteFace ;;
   if hl then updateMouseHover event else ret tt)%handle.

Definition mouseRelease (event : MouseEvent) : M unit :=
  (go <- gets (fun h => resizing h event) ;;
   if go then
     sp <- gets dragStartPoint ;;
     match sp with
     | Some _ => endCreate event
     | None =>
         f <- gets dragResizeFace ;;
         match f with
         | Some _ => endResize event
         | None => ret tt
         end
     end
   else
     endMove event)%handle.

(** One whole gesture: the press, one move, the release. *)
Definition gesture (press move release : MouseEvent) : M unit :=
  (mousePress press ;; mouseMove move ;; mouseRelease release)%handle.

End Methods.

(** ** Sample collaborators and events, for the examples below *)

(** A cursor ray that misses every box. *)
Definition collab_miss : Collaborators :=
  {| boxFaceUnderCursor := fun _ _ => (mkVector 0%Q 0%Q 0%Q, None);
     intersectPlane := intersectPlane_spec |}.

(** A cursor ray that hits face 3 (axis Y, side 1) at the point (1, 4, 2). *)
Definition collab_hit3 : Collaborators :=
  {| boxFaceUnderCursor :=
       fun _ _ => (mkVector 1%Q 4%Q (inject_Z 2), Some 3);
     intersectPlane := intersectPlane_spec |}.

Definition bareBoxNode : SelectionBoxNode.t := SelectionBoxNode.mk None true.
Definition bareFaceNode : SelectionFaceNode.t :=
  SelectionFaceNode.mk None false None _resizeFaceColor.

(** A fresh handle, and a fresh handle after [bounds] was set to the box
    of origin (0,0,0) and size (4,4,4). *)
Definition fresh : BoxHandle := __init__ bareBoxNode bareFaceNode.
Definition box444 : BoundingBox :=
  mkBoundingBox (mkVector 0 0 0) (mkVector 4 4 4).
Definition fresh444 : BoxHandle :=
  self (snd (set_bounds (Some box444) (mkWorld fresh []))).

(** A ray straight down from (2, 5, 3): it crosses the plane Y = 1 at
    (2, 1, 3). *)
Definition rayDown : Ray :=
  mkRay (mkVector (inject_Z 2) (inject_Z 5) (inject_Z 3))
        (mkVector 0%Q (inject_Z (-1)) 0%Q).

(** A ray along -Z from (0, 6.5, 5): it crosses the plane Z = 2 at
    (0, 6.5, 2). *)
Definition rayHalf : Ray :=
  mkRay (mkVector 0%Q (13 # 2)%Q (inject_Z 5))
        (mkVector 0%Q 0%Q (inject_Z (-1))).

(** An event with no modifier held, the camera looking along -Z. *)
Definition plainEvent (r : Ray) (pos : Vector Z) : MouseEvent :=
  mkMouseEvent r 0 (mkVector 0%Q 0%Q (inject_Z (-1))) pos.

Definition start (h : BoxHandle) : World := mkWorld h [].

(** The handle [fresh444] after a press that hits face 3: a resize gesture
    is under way, sweeping the plane Z = 2. *)
Definition dragging444 : BoxHandle :=
  self (snd (@mousePress collab_hit3
               (plainEvent rayHalf (mkVector 0 0 0)) (start fresh444))).

(** The handle [fresh] after a press at voxel (0,0,0): a create gesture is
    under way. *)
Definition creating000 : BoxHandle :=
  self (snd (@mousePress collab_miss
               (plainEvent rayDown (mkVector 0 0 0)) (start fresh))).

(** ** Sequences of events *)

Section Drivers.
Context {collab : Collaborators}.

(** [mouseMove] called once for each event of the list, in order. *)
Fixpoint mouseMoves (events : list MouseEvent) : M unit :=
  match events with
  | [] => ret tt
  | event :: rest => (mouseMove event ;; mouseMoves rest)%handle
  end.

(** A drag: the press, the moves, the release. *)
Definition drag (press : MouseEvent) (moves : list MouseEvent)
  (release : MouseEvent) : M unit :=
  (mousePress press ;; mouseMoves moves ;; mouseRelease release)%handle.

(** One call of a mouse event method. *)
Inductive MouseCall : Type :=
| Press (event : MouseEvent)
| Move (event : MouseEvent)
| Release (event : MouseEvent).

Definition call (c : MouseCall) : M unit :=
  match c with
  | Press event => mousePress event
  | Move event => mouseMove event
  | Release event => mouseRelease event
  end.

(** The calls of the list, in order, up to the first that raises. *)
Fixpoint calls (cs : list MouseCall) : M unit :=
  match cs with
  | [] => ret tt
  | c :: rest => (call c ;; calls rest)%handle
  end.

End Drivers.

(** ** States of the handle *)

(** No box, or a box whose size is non-negative on every axis. *)
Definition valid_bounds (o : option BoundingBox) : Prop :=
  match o with
  | Some b => nonneg_size b
  | None => True
  end.

(** The boxes a handle holds: its bounds and the box a resize started
    from. *)
Definition valid_handle (h : BoxHandle) : Prop :=
  valid_bounds (bounds h) /\ valid_bounds (oldBounds h).

(** A resize gesture is under way: no create gesture, a face 0..5, a drag
    dimension 0..2, a drag position, the box the resize started from, and
    bounds. *)
Definition resize_under_way (h : BoxHandle) : bool :=
  match dragStartPoint h, dragResizeFace h, dragResizeDimension h,
        dragResizePosition h, oldBounds h, bounds h with
  | None, Some f, Some d, Some _, Some _, Some _ =>
      (0 <=? f) && (f <? 6) && (0 <=? d) && (d <? 3)
  | _, _, _, _, _, _ => false
  end.

(** A create gesture is under way: a start point and a start face 0..5. *)
Definition create_under_way (h : BoxHandle) : bool :=
  match dragStartPoint h, dragStartFace h with
  | Some _, Some f => (0 <=? f) && (f <? 6)
  | _, _ => false
  end.

(** Neither gesture is under way. *)
Definition idle (h : BoxHandle) : Prop :=
  dragStartPoint h = None /\ dragResizeFace h = None.

(** ** Signals *)

Definition isDone (s : Signal) : bool :=
  match s with
  | boundsChangedDone _ _ => true
  | boundsChanged _ => false
  end.

(** A run of signals without [boundsChangedDone]. *)
Definition no_done (l : list Signal) : Prop :=
  Forall (fun s => isDone s = false) l.

(** A run of signals with at most one [boundsChangedDone], which then is
    the last one. *)
Definition done_last (l : list Signal) : Prop :=
  no_done l \/
  exists l0 box isNew, l = l0 ++ [boundsChangedDone box isNew] /\ no_done l0.

(** The box that a signal carries. *)
Definition signal_box (s : Signal) : option BoundingBox :=
  match s with
  | boundsChanged box => box
  | boundsChangedDone box _ => box
  end.

(** The last signal of a run, if any. *)
Definition last_signal (l : list Signal) : option Signal :=
  match rev l with
  | s :: _ => Some s
  | [] => None
  end.

(** ** Specifications of methods *)

(** Whatever [m] returns or raises, it only appends to the log of emitted
    signals; when it appends nothing the bounds are as before, and
    otherwise the last signal appended carries the bounds as they are
    afterwards. *)
Definition announces {A} (m : M A) : Prop :=
  forall w,
    exists l,
      emitted (snd (m w)) = emitted w ++ l /\
      match last_signal l with
      | Some s => signal_box s = bounds (self (snd (m w)))
      | None => bounds (self (snd (m w))) = bounds (self w)
      end.

(** Whatever [m] returns or raises, it only appends to the log of emitted
    signals, and what it appends satisfies [P]. *)
Definition emits {A} (P : list Signal -> Prop) (m : M A) : Prop :=
  forall w, exists l, emitted (snd (m w)) = emitted w ++ l /\ P l.

(** From a handle that satisfies [I], [m] leaves a handle that satisfies
    [I], whether it returns or raises, and what it returns satisfies [R]. *)
Definition keeps {A} (I : BoxHandle -> Prop) (m : M A) (R : A -> Prop)
  : Prop :=
  forall w,
    I (self w) ->
    I (self (snd (m w))) /\ (forall a, fst (m w) = Ok a -> R a).

(** [h'] is [h] but for its two child nodes. *)
Definition same_but_nodes (h h' : BoxHandle) : Prop :=
  exists bn fn, h' = with_faceDragNode fn (with_boxNode bn h).

(** * Properties of the embedding *)

(** Float arithmetic stays folded under [simpl]. *)
#[local] Arguments Qplus : simpl never.
#[local] Arguments Qminus : simpl never.
#[local] Arguments Qmult : simpl never.
#[local] Arguments Qdiv : simpl never.
#[local] Arguments Qabs : simpl never.
#[local] Arguments Qfloor : simpl never.
#[local] Arguments inject_Z : simpl never.

(** ** Comparisons *)

Lemma Vector_eqb_eq (u v : Vector Z) : Vector_eqb u v = true <-> u = v.
Proof.
  destruct u as [a b c], v as [a' b' c']; unfold Vector_eqb; simpl.
  rewrite !andb_true_iff, !Z.eqb_eq.
  split; [intros [[-> ->] ->]; reflexivity | intros H; inversion H; auto].
Qed.

Lemma BoundingBox_eqb_eq (a b : BoundingBox) : BoundingBox_eqb a b = true <-> a = b.
Proof.
  destruct a as [o s], b as [o' s']; unfold BoundingBox_eqb; simpl.
  rewrite andb_true_iff, !Vector_eqb_eq.
  split; [intros [-> ->]; reflexivity | intros H; inversion H; auto].
Qed.

Lemma bounds_ne_false (a b : option BoundingBox) : bounds_ne a b = false <-> a = b.
Proof.
  destruct a as [x|], b as [y|]; simpl; try (split; [discriminate | congruence]).
  - rewrite negb_false_iff, BoundingBox_eqb_eq. split; congruence.
  - split; reflexivity.
Qed.

Lemma bounds_ne_true (a b : option BoundingBox) : bounds_ne a b = true <-> a <> b.
Proof.
  rewrite <- bounds_ne_false. destruct (bounds_ne a b); split; congruence.
Qed.

Lemma Qgtb_lt (a b : Q) : Qgtb a b = true <-> (b < a)%Q.
Proof.
  unfold Qgtb. rewrite negb_true_iff. split; intro H.
  - apply Qnot_le_lt. intro L. apply Qle_bool_iff in L. congruence.
  - destruct (Qle_bool a b) eqn:E; [|reflexivity].
    apply Qle_bool_iff in E. exfalso. exact (Qlt_not_le _ _ H E).
Qed.

Lemma Qgtb_not_lt (a b : Q) : Qgtb a b = false <-> ~ (b < a)%Q.
Proof.
  rewrite <- Qgtb_lt. destruct (Qgtb a b); split; congruence.
Qed.

(** The divisor [normal[dim] or 0.0001] is never zero. *)
Lemma orQ_epsilon_nonzero (d : Q) : Qeq_bool (orQ d (1 # 10000)) 0 = false.
Proof.
  unfold orQ, truthyQ. destruct (Qeq_bool d 0) eqn:E; simpl.
  - reflexivity.
  - exact E.
Qed.

Lemma truediv_epsilon (a d : Q) :
  truediv a (orQ d (1 # 10000)) = Ok (a / orQ d (1 # 10000))%Q.
Proof. unfold truediv. rewrite orQ_epsilon_nonzero. reflexivity. Qed.

Lemma orQ_zero (d e : Q) : (d == 0)%Q -> orQ d e = e.
Proof.
  intro H. unfold orQ, truthyQ.
  apply Qeq_bool_iff in H. rewrite H. reflexivity.
Qed.

Lemma orQ_nonzero (d e : Q) : ~ (d == 0)%Q -> orQ d e = d.
Proof.
  intro H. unfold orQ, truthyQ.
  destruct (Qeq_bool d 0) eqn:E; [|reflexivity].
  apply Qeq_bool_iff in E. contradiction.
Qed.

(** Case analysis on an index: the six indices of a three-element
    sequence, and the shapes of integer that are out of range. *)
Ltac case_index i :=
  destruct i as [|[[?|?|]|[?|?|]|]|[[?|?|]|[?|?|]|]].

Lemma getitem_IndexError {A} (v : Vector A) (i : Z) (e : exn) :
  getitem v i = Raise e -> e = IndexError.
Proof. case_index i; simpl; intro H; inversion H; reflexivity. Qed.

Lemma setitem_IndexError {A} (v : Vector A) (i : Z) (a : A) (e : exn) :
  setitem v i a = Raise e -> e = IndexError.
Proof. case_index i; simpl; intro H; inversion H; reflexivity. Qed.

(** ** The bounds property *)

(** C3. Setting [bounds] to the current box changes nothing and emits
    nothing; setting it to a different box stores the new box in both child
    nodes and emits [boundsChanged] once, with the new box, and nothing
    else. *)
Theorem set_bounds_effect :
  (forall w, set_bounds (bounds (self w)) w = (Ok tt, w)) /\
  (forall w box,
      box <> bounds (self w) ->
      exists w',
        set_bounds box w = (Ok tt, w') /\
        SelectionBoxNode.selectionBox (boxNode (self w')) = box /\
        SelectionFaceNode.selectionBox (faceDragNode (self w')) = box /\
        emitted w' = emitted w ++ [boundsChanged box]).
Proof.
  split.
  - intros w. unfold set_bounds, bind, gets.
    replace (bounds_ne (bounds (self w)) (bounds (self w))) with false
      by (symmetry; apply bounds_ne_false; reflexivity).
    reflexivity.
  - intros w box Hne. apply bounds_ne_true in Hne.
    unfold set_bounds, bind, gets. rewrite Hne.
    eexists. split; [reflexivity|]. simpl. auto.
Qed.

Lemma set_bounds_effect_witness :
  exists w',
    set_bounds (Some box444) (start fresh) = (Ok tt, w') /\
    SelectionBoxNode.selectionBox (boxNode (self w')) = Some box444 /\
    SelectionFaceNode.selectionBox (faceDragNode (self w')) = Some box444 /\
    emitted w' = emitted (start fresh) ++ [boundsChanged (Some box444)].
Proof.
  apply (proj2 set_bounds_effect (start fresh) (Some box444)).
  simpl. discriminate.
Defined.

(** ** The resizable property *)

(** C9. [resizable = False] without bounds raises [AssertionError] and the
    handle is as it was; [resizable = False] with bounds and
    [resizable = True] in any state store the flag and raise nothing. *)
Theorem set_resizable_effect :
  (forall w,
      bounds (self w) = None ->
      set_resizable false w = (Raise AssertionError, w)) /\
  (forall w b,
      bounds (self w) = Some b ->
      exists w',
        set_resizable false w = (Ok tt, w') /\ resizable (self w') = false) /\
  (forall w,
      exists w',
        set_resizable true w = (Ok tt, w') /\ resizable (self w') = true).
Proof.
  repeat split.
  - intros w H. unfold set_resizable, bind, gets. rewrite H. reflexivity.
  - intros w b H. unfold set_resizable, bind, gets. rewrite H. simpl.
    eexists. split; reflexivity.
  - intros w. unfold set_resizable, bind, gets. simpl.
    eexists. split; reflexivity.
Qed.

Lemma set_resizable_effect_witness :
  set_resizable false (start fresh) = (Raise AssertionError, start fresh) /\
  (exists w',
      set_resizable false (start fresh444) = (Ok tt, w') /\
      resizable (self w') = false).
Proof.
  split.
  - apply (proj1 set_resizable_effect (start fresh)). reflexivity.
  - apply (proj1 (proj2 set_resizable_effect) (start fresh444) box444).
    reflexivity.
Defined.

(** ** The plane intersection of a resize drag *)

(** C5. [dragResizePoint] raises no [ZeroDivisionError] for any handle and
    any ray.  With the drag dimension and position set, it returns
    [normal * scale + nearPoint], where [scale] is the distance divided by
    0.0001 when the ray's component on the drag dimension is zero, and by
    that component otherwise. *)
Theorem dragResizePoint_no_division_error :
  (forall h r, dragResizePoint h r <> Raise ZeroDivisionError) /\
  (forall h r dim pos n d,
      dragResizeDimension h = Some dim ->
      dragResizePosition h = Some pos ->
      getitem (nearPoint r) dim = Ok n ->
      getitem (normal r) dim = Ok d ->
      ((d == 0)%Q ->
       dragResizePoint h r =
         Ok (vaddQ (vscale (normal r) ((pos - n) / (1 # 10000))%Q)
               (nearPoint r))) /\
      (~ (d == 0)%Q ->
       dragResizePoint h r =
         Ok (vaddQ (vscale (normal r) ((pos - n) / d)%Q) (nearPoint r)))).
Proof.
  split.
  - intros h r. unfold dragResizePoint.
    destruct (dragResizeDimension h) as [dim|]; simpl; [|discriminate].
    destruct (getitem (nearPoint r) dim) as [n|e] eqn:En; simpl.
    2:{ apply getitem_IndexError in En. subst e. discriminate. }
    destruct (dragResizePosition h) as [pos|]; simpl; [|discriminate].
    destruct (getitem (normal r) dim) as [d|e] eqn:Ed; simpl.
    2:{ apply getitem_IndexError in Ed. subst e. discriminate. }
    rewrite truediv_epsilon. simpl. discriminate.
  - intros h r dim pos n d Hdim Hpos Hn Hd.
    unfold dragResizePoint. rewrite Hdim, Hpos. simpl.
    rewrite Hn, Hd. simpl. rewrite truediv_epsilon. simpl.
    split; intro Hz.
    + rewrite (orQ_zero _ _ Hz). reflexivity.
    + rewrite (orQ_nonzero _ _ Hz). reflexivity.
Qed.

Lemma dragResizePoint_no_division_error_witness :
  dragResizePoint dragging444 rayDown =
    Ok (vaddQ (vscale (normal rayDown)
                 ((inject_Z 2 - inject_Z 3) / (1 # 10000))%Q)
          (nearPoint rayDown)).
Proof.
  apply (proj1 (proj2 dragResizePoint_no_division_error
                  dragging444 rayDown 2 (inject_Z 2) (inject_Z 3) 0%Q
                  eq_refl eq_refl eq_refl eq_refl)).
  reflexivity.
Defined.

(** ** The box of a resize drag *)

Lemma dragResizePoint_ready (h : BoxHandle) (r : Ray) (d : Z) (p : Q) :
  dragResizeDimension h = Some d -> 0 <= d < 3 ->
  dragResizePosition h = Some p ->
  exists point, dragResizePoint h r = Ok point.
Proof.
  intros Hd Hr Hp. unfold dragResizePoint. rewrite Hd, Hp. simpl.
  assert (d = 0 \/ d = 1 \/ d = 2) as [-> | [-> | ->]] by lia;
    simpl; rewrite truediv_epsilon; simpl; eexists; reflexivity.
Qed.

Lemma boxFromDragResize_ready (h : BoxHandle) (box : BoundingBox) (r : Ray)
  (f d : Z) (p : Q) :
  dragResizeFace h = Some f -> 0 <= f < 6 ->
  dragResizeDimension h = Some d -> 0 <= d < 3 ->
  dragResizePosition h = Some p ->
  exists b', boxFromDragResize h (Some box) r = Ok b'.
Proof.
  intros Hf Hfr Hd Hdr Hp.
  destruct (dragResizePoint_ready h r d p Hd Hdr Hp) as [point Hpt].
  unfold boxFromDragResize. rewrite Hpt, Hf. simpl.
  assert (f = 0 \/ f = 1 \/ f = 2 \/ f = 3 \/ f = 4 \/ f = 5)
    as [-> | [-> | [-> | [-> | [-> | ->]]]]] by lia;
    simpl; eexists; reflexivity.
Qed.

(** C6. From a box of non-negative size, whatever [boxFromDragResize]
    returns has a non-negative size on every axis; and it does return a
    box whenever a resize gesture is under way (a face 0..5, a drag
    dimension 0..2 and a drag position are set). *)
Theorem boxFromDragResize_nonneg_size (h : BoxHandle) (box : BoundingBox)
  (r : Ray) :
  nonneg_size box ->
  (forall b', boxFromDragResize h (Some box) r = Ok b' -> nonneg_size b') /\
  (forall f d p,
      dragResizeFace h = Some f -> 0 <= f < 6 ->
      dragResizeDimension h = Some d -> 0 <= d < 3 ->
      dragResizePosition h = Some p ->
      exists b', boxFromDragResize h (Some box) r = Ok b').
Proof.
  intros Hnn. split.
  - intros b' H. unfold boxFromDragResize in H.
    destruct (dragResizePoint h r) as [point|]; simpl in H; [|discriminate].
    destruct (dragResizeFace h) as [f|]; simpl in H; [|discriminate].
    remember (Z.shiftr f 1) as dd eqn:Edd. clear Edd.
    destruct box as [[ox oy oz] [sx sy sz]], point as [px py pz].
    unfold nonneg_size in *. simpl in *.
    destruct (truthyZ (Z.land f 1)); case_index dd; simpl in H;
      try discriminate; inversion H; subst b'; simpl; lia.
  - intros f d p. apply boxFromDragResize_ready.
Qed.

Lemma boxFromDragResize_nonneg_size_witness :
  exists b', boxFromDragResize dragging444 (Some box444) rayHalf = Ok b'.
Proof.
  assert (Hnn : nonneg_size box444) by (unfold nonneg_size; simpl; lia).
  apply (proj2 (boxFromDragResize_nonneg_size dragging444 box444 rayHalf Hnn)
           3 2 (inject_Z 2) eq_refl ltac:(lia) eq_refl ltac:(lia) eq_refl).
Defined.


(** Integers below 2^52 in magnitude are among the floats whose sum with
    0.5 involves no rounding. *)
Lemma half_sum_exact_inject_Z (k : Z) :
  Z.abs k < 2 ^ 52 -> half_sum_exact (inject_Z k).
Proof.
  intros H. exists k, 0. split; [exact H|]. split; [lia|].
  change (inject_Z (2 ^ 0)) with 1%Q. field.
Qed.



(** ** The gestures *)

#[local] Arguments Z.modulo : simpl never.

Section Gestures.
Context {collab : Collaborators}.

Lemma resizing_true (h : BoxHandle) (event : MouseEvent) :
  resizable h = true -> moveModifierDown h event = 0 ->
  resizing h event = true.
Proof. intros Hr Hm. unfold resizing. rewrite Hr, Hm. reflexivity. Qed.

(** C10. With [resizable] true, the move modifier not held and no
    gesture under way, [mouseRelease] returns with the handle and the
    log of emitted signals exactly as they were. *)
Theorem mouseRelease_idle (event : MouseEvent) (w : World) :
  resizable (self w) = true ->
  moveModifierDown (self w) event = 0 ->
  dragStartPoint (self w) = None ->
  dragResizeFace (self w) = None ->
  mouseRelease event w = (Ok tt, w).
Proof.
  intros Hr Hm Hs Hf.
  unfold mouseRelease, bind, gets.
  rewrite (resizing_true _ _ Hr Hm), Hs, Hf. reflexivity.
Qed.

Lemma mod3_cases (n : Z) : n mod 3 = 0 \/ n mod 3 = 1 \/ n mod 3 = 2.
Proof. pose proof (Z.mod_pos_bound n 3). lia. Qed.

(** C4. When the ray hits a face, [beginResize] returns [True] with
    [dragResizeDimension] chosen as follows: [dim] is
    [(face.dimension + 1) % 3] and [dim1] is [(dim + 1) % 3]; the choice
    is [dim1] when the camera vector's absolute component on [dim1] is
    strictly greater than the one on [dim], and [dim] otherwise, so also
    when the two are equal. *)
Theorem beginResize_dimension (event : MouseEvent) (w : World)
  (point : Vector Q) (face : Face) :
  boxFaceUnderCursor (bounds (self w)) (ray event) = (point, Some face) ->
  let dim := (dimension face + 1) mod 3 in
  let dim1 := (dim + 1) mod 3 in
  exists w' c c1,
    beginResize event w = (Ok (Some true), w') /\
    dragResizeFace (self w') = Some face /\
    getitem (cameraVector event) dim = Ok c /\
    getitem (cameraVector event) dim1 = Ok c1 /\
    ((Qabs c < Qabs c1)%Q -> dragResizeDimension (self w') = Some dim1) /\
    (~ (Qabs c < Qabs c1)%Q -> dragResizeDimension (self w') = Some dim) /\
    ((Qabs c1 == Qabs c)%Q -> dragResizeDimension (self w') = Some dim).
Proof.
  intros Hhit dim dim1. subst dim1.
  assert (Hno : forall a b : Q, (a == b)%Q -> ~ (b < a)%Q).
  { intros a b E L. rewrite E in L. exact (Qlt_irrefl _ L). }
  unfold beginResize, bind, gets. rewrite Hhit.
  destruct (cameraVector event) as [cx cy cz], point as [px py pz].
  destruct (mod3_cases (dimension face + 1)) as [E | [E | E]];
    subst dim; rewrite E;
    [ change ((0 + 1) mod 3) with 1
    | change ((1 + 1) mod 3) with 2
    | change ((2 + 1) mod 3) with 0 ];
    cbn -[Qgtb];
    match goal with
    | |- context [Qgtb ?a ?b] =>
        destruct (Qgtb a b) eqn:G;
        [apply Qgtb_lt in G | apply Qgtb_not_lt in G]
    end;
    cbn; eexists; do 2 eexists;
    (split; [reflexivity|]); cbn;
    repeat split; try reflexivity; intros; try reflexivity;
    try contradiction; exfalso; eapply Hno; eassumption.
Qed.

(** C1 (as the code has it). A press with [resizable] true, the move
    modifier not held and bounds set, whose ray hits no face, clears
    [bounds], emits [boundsChanged(None)], and begins a create gesture in
    the same call: [dragStartPoint] is the event's block position and
    [dragStartFace] is [FaceYIncreasing]. *)
Theorem mousePress_miss_begins_create (event : MouseEvent) (w : World)
  (b : BoundingBox) (point : Vector Q) :
  resizable (self w) = true ->
  moveModifierDown (self w) event = 0 ->
  bounds (self w) = Some b ->
  boxFaceUnderCursor (Some b) (ray event) = (point, None) ->
  exists w',
    mousePress event w = (Ok tt, w') /\
    bounds (self w') = None /\
    dragStartPoint (self w') = Some (blockPosition event) /\
    dragStartFace (self w') = Some FaceYIncreasing /\
    emitted w' = emitted w ++ [boundsChanged None].
Proof.
  intros Hr Hm Hb Hmiss.
  unfold mousePress, beginResize, set_bounds, bind, gets.
  rewrite (resizing_true _ _ Hr Hm).
  repeat (progress (cbn; rewrite ?Hb, ?Hmiss)).
  eexists. split; [reflexivity|]. cbn. auto.
Qed.

Lemma boxFromDragSelect_ready (h : BoxHandle) (r : Ray) (sp : Vector Z)
  (sf : Face) :
  dragStartPoint h = Some sp ->
  dragStartFace h = Some sf -> 0 <= sf < 6 ->
  (forall dim pos, 0 <= dim < 3 -> exists q, intersectPlane r dim pos = Ok q) ->
  exists nb, boxFromDragSelect h r = Ok nb.
Proof.
  intros Hsp Hsf Hr Hip.
  unfold boxFromDragSelect. rewrite Hsp, Hsf.
  destruct sp as [x y z].
  assert (sf = 0 \/ sf = 1 \/ sf = 2 \/ sf = 3 \/ sf = 4 \/ sf = 5)
    as [-> | [-> | [-> | [-> | [-> | ->]]]]] by lia;
    cbn;
    match goal with
    | |- context [intersectPlane r ?d ?pos] =>
        destruct (Hip d pos ltac:(lia)) as [q ->]
    end;
    cbn; eexists; reflexivity.
Qed.

(** C2 (as the code has it). The release that ends a resize gesture
    leaves [dragResizeFace] and [oldBounds] unset, and
    [dragResizeDimension] and [dragResizePosition] with the values they
    had; the release that ends a create gesture leaves [dragStartPoint]
    unset and [dragStartFace] with the value it had. *)
Theorem mouseRelease_clears (event : MouseEvent) (w : World) :
  resizable (self w) = true ->
  moveModifierDown (self w) event = 0 ->
  (forall f d p ob,
      dragStartPoint (self w) = None ->
      dragResizeFace (self w) = Some f -> 0 <= f < 6 ->
      dragResizeDimension (self w) = Some d -> 0 <= d < 3 ->
      dragResizePosition (self w) = Some p ->
      oldBounds (self w) = Some ob ->
      exists w',
        mouseRelease event w = (Ok tt, w') /\
        dragResizeFace (self w') = None /\
        oldBounds (self w') = None /\
        dragResizeDimension (self w') = Some d /\
        dragResizePosition (self w') = Some p /\
        dragStartPoint (self w') = None) /\
  (forall sp sf,
      dragStartPoint (self w) = Some sp ->
      dragStartFace (self w) = Some sf -> 0 <= sf < 6 ->
      (forall dim pos, 0 <= dim < 3 ->
                       exists q, intersectPlane (ray event) dim pos = Ok q) ->
      exists w',
        mouseRelease event w = (Ok tt, w') /\
        dragStartPoint (self w') = None /\
        dragStartFace (self w') = Some sf).
Proof.
  intros Hr Hm. split.
  - intros f d p ob Hsp Hf Hfr Hd Hdr Hp Hob.
    destruct (boxFromDragResize_ready (self w) ob (ray event) f d p
                Hf Hfr Hd Hdr Hp) as [nb Hnb].
    unfold mouseRelease, endResize, set_bounds, bind, gets, try.
    rewrite (resizing_true _ _ Hr Hm), Hsp, Hf, Hob, Hnb.
    destruct (bounds_ne (Some nb) (bounds (self w)));
      cbn; eexists; (split; [reflexivity|]); cbn; auto.
  - intros sp sf Hsp Hsf Hsr Hip.
    destruct (boxFromDragSelect_ready (self w) (ray event) sp sf
                Hsp Hsf Hsr Hip) as [nb Hnb].
    unfold mouseRelease, endCreate, set_bounds, bind, gets, try.
    rewrite (resizing_true _ _ Hr Hm), Hsp, Hnb.
    cbn -[bounds_ne].
    match goal with
    | |- context [bounds_ne ?a ?b] => destruct (bounds_ne a b)
    end;
      cbn; eexists; (split; [reflexivity|]); cbn; auto.
Qed.

Lemma intfloor_veqQ (p : Vector Q) (v : Vector Z) :
  veqQ p (vmap inject_Z v) -> intfloor p = v.
Proof.
  destruct p as [px py pz], v as [x y z].
  unfold veqQ, intfloor, vmap. cbn. intros [Hx [Hy Hz]].
  rewrite Hx, Hy, Hz, !Qfloor_Z. reflexivity.
Qed.

(** A press with no bounds begins a create gesture. *)
Lemma mousePress_begins_create (event : MouseEvent) (w : World) :
  resizing (self w) event = true ->
  bounds (self w) = None ->
  mousePress event w =
    (Ok tt,
     mkWorld (with_dragStartFace (Some FaceYIncreasing)
                (with_dragStartPoint (Some (blockPosition event)) (self w)))
       (emitted w)).
Proof.
  intros Hgo Hb. unfold mousePress, beginCreate, bind, gets, modify.
  rewrite Hgo, Hb. cbn. rewrite Hb. reflexivity.
Qed.

(** The hover update writes to the face node only. *)
Lemma updateMouseHover_frame (event : MouseEvent) (w : World) :
  exists n,
    updateMouseHover event w =
      (Ok tt, mkWorld (with_faceDragNode n (self w)) (emitted w)).
Proof.
  unfold updateMouseHover, bind, gets, modify.
  destruct w as [h e]. destruct h. cbn.
  match goal with
  | |- context [bounds ?x] => destruct (bounds x) as [b|] eqn:Hb
  end; [|eexists; reflexivity].
  match goal with
  | |- context [boxFaceUnderCursor ?a ?b] =>
      destruct (boxFaceUnderCursor a b) as [pt [fc|]]
  end;
    match goal with
    | |- context [truthyZ ?a] => destruct (truthyZ a)
    end; eexists; reflexivity.
Qed.

(** A move during a create gesture, from no bounds. *)
Lemma mouseMove_create (event : MouseEvent) (w : World) (sp : Vector Z)
  (nb : BoundingBox) :
  resizing (self w) event = true ->
  dragStartPoint (self w) = Some sp ->
  boxFromDragSelect (self w) (ray event) = Ok nb ->
  bounds (self w) = None ->
  exists n,
    mouseMove event w =
      (Ok tt,
       mkWorld (with_faceDragNode n
                  (boxNode_set_selectionBox (Some nb) (self w)))
         (emitted w ++ [boundsChanged (Some nb)])).
Proof.
  intros Hgo Hsp Hnb Hb.
  set (w1 := mkWorld (faceDragNode_set_selectionBox (Some nb)
                        (boxNode_set_selectionBox (Some nb) (self w)))
               (emitted w ++ [boundsChanged (Some nb)])).
  unfold mouseMove, continueCreate, set_bounds, bind, gets, try, modify, emit.
  rewrite Hgo, Hsp, Hnb, Hb. cbn -[updateMouseHover].
  destruct (hiliteFace (self w)).
  - fold w1. destruct (updateMouseHover_frame event w1) as [n Hn].
    exists n. rewrite Hn. reflexivity.
  - eexists. reflexivity.
Qed.

(** The release of a create gesture whose box is already the bounds. *)
Lemma mouseRelease_create (event : MouseEvent) (w : World) (sp : Vector Z)
  (nb : BoundingBox) :
  resizing (self w) event = true ->
  dragStartPoint (self w) = Some sp ->
  boxFromDragSelect (self w) (ray event) = Ok nb ->
  bounds (self w) = Some nb ->
  mouseRelease event w =
    (Ok tt,
     mkWorld (with_dragStartPoint None (self w))
       (emitted w ++ [boundsChangedDone (Some nb) true])).
Proof.
  intros Hgo Hsp Hnb Hb.
  unfold mouseRelease, endCreate, set_bounds, bind, gets, try, modify, emit.
  rewrite Hgo, Hsp, Hnb. cbn -[bounds_ne].
  change (bounds (with_dragStartPoint None (self w))) with (bounds (self w)).
  rewrite Hb.
  replace (bounds_ne (Some nb) (Some nb)) with false
    by (symmetry; apply bounds_ne_false; reflexivity).
  reflexivity.
Qed.

(** The box dragged out from voxel (0,0,0) to a ray that crosses the
    plane Y = 1 in the cell (2,1,3). *)
Lemma boxFromDragSelect_scenario (h : BoxHandle) (r : Ray) (p : Vector Q) :
  dragStartPoint h = Some (mkVector 0 0 0) ->
  dragStartFace h = Some FaceYIncreasing ->
  intersectPlane r 1 1 = Ok p ->
  intfloor p = mkVector 2 1 3 ->
  boxFromDragSelect h r =
    Ok (mkBoundingBox (mkVector 0 1 0) (mkVector 3 0 4)).
Proof.
  intros Hsp Hsf Hip Hp. unfold boxFromDragSelect.
  rewrite Hsp, Hsf. cbn. rewrite Hip. cbn. rewrite Hp. reflexivity.
Qed.

(** C8 (as the code has it). From a handle with no bounds and
    [resizable] true: a press at voxel (0,0,0), a move whose ray crosses
    the plane Y = 1 at (2,1,3) and a release with the same ray, no move
    modifier held, end with [bounds] the flat box of origin (0,1,0) and
    size (3,0,4); the signals emitted are one [boundsChanged] with that
    box and then one [boundsChangedDone] with that box and [True]. *)
Theorem create_gesture_scenario (h : BoxHandle)
  (press move release : MouseEvent) (p : Vector Q) :
  bounds h = None ->
  resizable h = true ->
  moveModifierDown h press = 0 ->
  moveModifierDown h move = 0 ->
  moveModifierDown h release = 0 ->
  blockPosition press = mkVector 0 0 0 ->
  ray release = ray move ->
  intersectPlane (ray move) 1 1 = Ok p ->
  veqQ p (vmap inject_Z (mkVector 2 1 3)) ->
  let box := mkBoundingBox (mkVector 0 1 0) (mkVector 3 0 4) in
  exists w',
    gesture press move release (start h) = (Ok tt, w') /\
    bounds (self w') = Some box /\
    emitted w' = [boundsChanged (Some box); boundsChangedDone (Some box) true].
Proof.
  intros Hb Hr Hm1 Hm2 Hm3 Hpos Hray Hip Hp box.
  apply intfloor_veqQ in Hp.
  pose proof (resizing_true _ _ Hr Hm1) as Hgo1.
  pose proof (resizing_true _ _ Hr Hm2) as Hgo2.
  pose proof (resizing_true _ _ Hr Hm3) as Hgo3.
  unfold gesture, bind.
  rewrite (mousePress_begins_create press (start h) Hgo1 Hb), Hpos.
  set (h1 := with_dragStartFace _ _).
  assert (Hsel : forall r, r = ray move -> boxFromDragSelect h1 r = Ok box).
  { intros r ->.
    exact (boxFromDragSelect_scenario h1 (ray move) p eq_refl eq_refl Hip Hp). }
  destruct (mouseMove_create move (mkWorld h1 (emitted (start h)))
              (mkVector 0 0 0) box Hgo2 eq_refl (Hsel _ eq_refl) Hb)
    as [n Hmove].
  rewrite Hmove.
  set (h2 := with_faceDragNode n _).
  rewrite (mouseRelease_create release (mkWorld h2 _) (mkVector 0 0 0) box
             Hgo3 eq_refl (Hsel _ Hray) eq_refl).
  eexists. split; [reflexivity|]. split; reflexivity.
Qed.

End Gestures.

(** ** The theorems on sample inputs *)

Lemma mouseRelease_idle_witness :
  @mouseRelease collab_miss (plainEvent rayDown (mkVector 0 0 0))
    (start fresh444) = (Ok tt, start fresh444).
Proof.
  apply (@mouseRelease_idle collab_miss); reflexivity.
Defined.

Lemma beginResize_dimension_witness :
  exists w' c c1,
    @beginResize collab_hit3 (plainEvent rayHalf (mkVector 0 0 0))
      (start fresh444) = (Ok (Some true), w') /\
    dragResizeFace (self w') = Some 3 /\
    getitem (mkVector 0%Q 0%Q (inject_Z (-1))) 2 = Ok c /\
    getitem (mkVector 0%Q 0%Q (inject_Z (-1))) 0 = Ok c1 /\
    ((Qabs c < Qabs c1)%Q -> dragResizeDimension (self w') = Some 0) /\
    (~ (Qabs c < Qabs c1)%Q -> dragResizeDimension (self w') = Some 2) /\
    ((Qabs c1 == Qabs c)%Q -> dragResizeDimension (self w') = Some 2).
Proof.
  apply (@beginResize_dimension collab_hit3
           (plainEvent rayHalf (mkVector 0 0 0)) (start fresh444)
           (mkVector 1%Q 4%Q (inject_Z 2)) 3).
  reflexivity.
Defined.

Lemma mousePress_miss_begins_create_witness :
  exists w',
    @mousePress collab_miss (plainEvent rayDown (mkVector 7 8 9))
      (start fresh444) = (Ok tt, w') /\
    bounds (self w') = None /\
    dragStartPoint (self w') = Some (mkVector 7 8 9) /\
    dragStartFace (self w') = Some FaceYIncreasing /\
    emitted w' = [boundsChanged None].
Proof.
  apply (@mousePress_miss_begins_create collab_miss
           (plainEvent rayDown (mkVector 7 8 9)) (start fresh444)
           box444 (mkVector 0%Q 0%Q 0%Q)); reflexivity.
Defined.

(** C1, as first stated, fails: on a handle with bounds and no gesture
    under way, a press that misses every face returns with
    [dragStartPoint] set, so the create gesture has begun in that call. *)
Lemma mousePress_miss_counterexample :
  let event := plainEvent rayDown (mkVector 7 8 9) in
  let w := start fresh444 in
  resizable (self w) = true /\
  moveModifierDown (self w) event = 0 /\
  bounds (self w) = Some box444 /\
  snd (@boxFaceUnderCursor collab_miss (bounds (self w)) (ray event)) = None /\
  dragStartPoint (self w) = None /\
  ~ (bounds (self (snd (@mousePress collab_miss event w))) = None /\
     dragStartPoint (self (snd (@mousePress collab_miss event w))) = None).
Proof.
  cbv zeta. repeat split; try reflexivity.
  intros [_ H]. vm_compute in H. discriminate H.
Qed.

Lemma mouseRelease_clears_witness :
  (exists w',
      @mouseRelease collab_hit3 (plainEvent rayHalf (mkVector 0 0 0))
        (start dragging444) = (Ok tt, w') /\
      dragResizeFace (self w') = None /\
      oldBounds (self w') = None /\
      dragResizeDimension (self w') = Some 2 /\
      dragResizePosition (self w') = Some (inject_Z 2) /\
      dragStartPoint (self w') = None) /\
  (exists v',
      @mouseRelease collab_miss (plainEvent rayDown (mkVector 0 0 0))
        (start creating000) = (Ok tt, v') /\
      dragStartPoint (self v') = None /\
      dragStartFace (self v') = Some FaceYIncreasing).
Proof.
  split.
  - refine (proj1 (@mouseRelease_clears collab_hit3
                     (plainEvent rayHalf (mkVector 0 0 0)) (start dragging444)
                     eq_refl eq_refl)
              3 2 (inject_Z 2) box444 eq_refl eq_refl _ eq_refl _ eq_refl
              eq_refl);
      lia.
  - refine (proj2 (@mouseRelease_clears collab_miss
                     (plainEvent rayDown (mkVector 0 0 0)) (start creating000)
                     eq_refl eq_refl)
              (mkVector 0 0 0) FaceYIncreasing eq_refl eq_refl _ _).
    + unfold FaceYIncreasing. lia.
    + intros dim pos H.
      assert (dim = 0 \/ dim = 1 \/ dim = 2) as [-> | [-> | ->]] by lia;
        eexists; reflexivity.
Defined.

(** C2, as first stated, fails: the release that ends a resize gesture
    returns with [dragResizeDimension] and [dragResizePosition] still set,
    and the release that ends a create gesture returns with
    [dragStartFace] still set. *)
Lemma mouseRelease_clears_counterexample :
  let event := plainEvent rayHalf (mkVector 0 0 0) in
  let w := start dragging444 in
  let w' := snd (@mouseRelease collab_hit3 event w) in
  let event0 := plainEvent rayDown (mkVector 0 0 0) in
  let v := start creating000 in
  let v' := snd (@mouseRelease collab_miss event0 v) in
  (dragResizeFace (self w) = Some 3 /\
   oldBounds (self w) = Some box444 /\
   fst (@mouseRelease collab_hit3 event w) = Ok tt /\
   ~ (dragResizeFace (self w') = None /\
      dragResizeDimension (self w') = None /\
      dragResizePosition (self w') = None /\
      oldBounds (self w') = None)) /\
  (dragStartPoint (self v) = Some (mkVector 0 0 0) /\
   fst (@mouseRelease collab_miss event0 v) = Ok tt /\
   ~ (dragStartPoint (self v') = None /\ dragStartFace (self v') = None)).
Proof.
  cbv zeta. repeat split; try reflexivity.
  - intros [_ [H _]]. vm_compute in H. discriminate H.
  - intros [_ H]. vm_compute in H. discriminate H.
Qed.

Lemma create_gesture_scenario_witness :
  let event := plainEvent rayDown (mkVector 0 0 0) in
  let box := mkBoundingBox (mkVector 0 1 0) (mkVector 3 0 4) in
  exists w',
    @gesture collab_miss event event event (start fresh) = (Ok tt, w') /\
    bounds (self w') = Some box /\
    emitted w' = [boundsChanged (Some box); boundsChangedDone (Some box) true].
Proof.
  cbv zeta.
  eapply (@create_gesture_scenario collab_miss fresh
            (plainEvent rayDown (mkVector 0 0 0))
            (plainEvent rayDown (mkVector 0 0 0))
            (plainEvent rayDown (mkVector 0 0 0))).
  - reflexivity.
  - reflexivity.
  - reflexivity.
  - reflexivity.
  - reflexivity.
  - reflexivity.
  - reflexivity.
  - reflexivity.
  - repeat split; reflexivity.
Defined.

(** C8, as first stated, fails: the box at the end of the scenario is not
    the box of origin (0,0,0) and size (3,1,4). *)
Lemma create_gesture_scenario_counterexample :
  let event := plainEvent rayDown (mkVector 0 0 0) in
  let w' := snd (@gesture collab_miss event event event (start fresh)) in
  bounds fresh = None /\
  resizable fresh = true /\
  (exists p,
      @intersectPlane collab_miss (ray event) 1 1 = Ok p /\
      veqQ p (vmap inject_Z (mkVector 2 1 3))) /\
  bounds (self w') <>
    Some (mkBoundingBox (mkVector 0 0 0) (mkVector 3 1 4)).
Proof.
  cbv zeta. split; [reflexivity|]. split; [reflexivity|]. split.
  - eexists. split; [reflexivity|]. repeat split; reflexivity.
  - intro H. vm_compute in H. discriminate H.
Qed.

(** * Further properties *)

(** ** Reading back the bounds *)

Lemma same_but_nodes_refl (h : BoxHandle) : same_but_nodes h h.
Proof. exists (boxNode h), (faceDragNode h). destruct h. reflexivity. Qed.

(** X1. Assigning [bounds] raises nothing; afterwards reading [bounds]
    gives the assigned value, whether or not the assignment was a no-op;
    only the two child nodes can have changed, and at most the one signal
    [boundsChanged] with the assigned value was emitted. *)
Theorem bounds_read_after_assign (box : option BoundingBox) (w : World) :
  exists w',
    set_bounds box w = (Ok tt, w') /\
    bounds (self w') = box /\
    same_but_nodes (self w) (self w') /\
    (emitted w' = emitted w \/ emitted w' = emitted w ++ [boundsChanged box]).
Proof.
  unfold set_bounds, bind, gets.
  destruct (bounds_ne box (bounds (self w))) eqn:E.
  - cbn. eexists. split; [reflexivity|]. cbn. repeat split.
    + eexists _, _. reflexivity.
    + right. reflexivity.
  - apply bounds_ne_false in E. exists w. cbn. repeat split.
    + congruence.
    + apply same_but_nodes_refl.
    + left. reflexivity.
Qed.

(** ** Where the drag point lies *)

(** X2. A ray parallel to the drag plane.  With the drag dimension (0..2)
    and position set, when the ray's component on the drag dimension is
    zero, the point that [dragResizePoint] returns has the near point's
    own coordinate on that axis: the epsilon keeps the division defined,
    it does not bring the point onto the plane. *)
Theorem dragResizePoint_parallel_ray (h : BoxHandle) (r : Ray) (dim : Z)
  (pos n d : Q) :
  dragResizeDimension h = Some dim -> 0 <= dim < 3 ->
  dragResizePosition h = Some pos ->
  getitem (nearPoint r) dim = Ok n ->
  getitem (normal r) dim = Ok d ->
  (d == 0)%Q ->
  exists point c,
    dragResizePoint h r = Ok point /\
    getitem point dim = Ok c /\
    (c == n)%Q.
Proof.
  intros Hdim Hr Hpos Hn Hd Hz.
  unfold dragResizePoint. rewrite Hdim, Hpos. cbn.
  rewrite Hn, Hd. cbn. rewrite truediv_epsilon. cbn.
  destruct r as [[nx ny nz] [dx dy dz]]. cbn in Hn, Hd.
  assert (Hc : forall s : Q, (d * s + n == n)%Q)
    by (intros s; rewrite Hz; ring).
  assert (dim = 0 \/ dim = 1 \/ dim = 2) as [-> | [-> | ->]] by lia;
    cbn in *; inversion Hn; inversion Hd; subst;
    eexists; eexists; (split; [reflexivity|]); (split; [reflexivity|]);
    apply Hc.
Qed.

Lemma dragResizePoint_parallel_ray_witness :
  exists point c,
    dragResizePoint dragging444 rayDown = Ok point /\
    getitem point 2 = Ok c /\
    (c == inject_Z 3)%Q.
Proof.
  refine (dragResizePoint_parallel_ray dragging444 rayDown 2 (inject_Z 2)
            (inject_Z 3) 0%Q eq_refl _ eq_refl eq_refl eq_refl _).
  - lia.
  - reflexivity.
Defined.

(** ** The shape of the boxes that a drag computes *)

Ltac case_face f :=
  let H := fresh in
  assert (H : f = 0 \/ f = 1 \/ f = 2 \/ f = 3 \/ f = 4 \/ f = 5) by lia;
  destruct H as [-> | [-> | [-> | [-> | [-> | ->]]]]].

Ltac case_axis a :=
  let H := fresh in
  assert (H : a = 0 \/ a = 1 \/ a = 2) by lia;
  destruct H as [-> | [-> | ->]].

(** X3. A resize moves one face only.  On the dragged axis the
    coordinate [c] of the stationary side is one end of the returned box:
    the box spans from [min m c] to [max m c] for some integer [m].  On
    the other two axes the returned box has the origin and the size of the
    box the resize started from. *)
Theorem boxFromDragResize_moves_one_face (h : BoxHandle) (box : BoundingBox)
  (r : Ray) (f : Face) (point : Vector Q) (p : Q) (o s : Z) :
  dragResizeFace h = Some f -> 0 <= f < 6 ->
  dragResizePoint h r = Ok point ->
  getitem point (Z.shiftr f 1) = Ok p ->
  getitem (origin box) (Z.shiftr f 1) = Ok o ->
  getitem (size box) (Z.shiftr f 1) = Ok s ->
  let c := if truthyZ (Z.land f 1) then o + s else o in
  exists b' m,
    boxFromDragResize h (Some box) r = Ok b' /\
    getitem (origin b') (Z.shiftr f 1) = Ok (Z.min m c) /\
    getitem (size b') (Z.shiftr f 1) = Ok (Z.max m c - Z.min m c) /\
    (forall a, 0 <= a < 3 -> a <> Z.shiftr f 1 ->
               getitem (origin b') a = getitem (origin box) a /\
               getitem (size b') a = getitem (size box) a).
Proof.
  intros Hf Hfr Hpt Hp Ho Hs c. subst c.
  unfold boxFromDragResize. rewrite Hpt, Hf. simpl.
  destruct box as [[ox oy oz] [sx sy sz]], point as [px py pz].
  case_face f; simpl in *; inversion Hp; inversion Ho; inversion Hs; subst;
    eexists; exists (Qfloor (p + (1 # 2)));
    (split; [reflexivity|]); simpl;
    (split; [f_equal; lia|]); (split; [f_equal; lia|]);
    intros a Ha Hne; case_axis a; simpl; try contradiction;
    split; f_equal; lia.
Qed.

Lemma boxFromDragResize_moves_one_face_witness :
  exists b' m,
    boxFromDragResize dragging444 (Some box444) rayHalf = Ok b' /\
    getitem (origin b') 1 = Ok (Z.min m (0 + 4)) /\
    getitem (size b') 1 = Ok (Z.max m (0 + 4) - Z.min m (0 + 4)) /\
    (forall a, 0 <= a < 3 -> a <> 1 ->
               getitem (origin b') a = getitem (origin box444) a /\
               getitem (size b') a = getitem (size box444) a).
Proof.
  refine (boxFromDragResize_moves_one_face dragging444 box444 rayHalf 3
            _ (13 # 2)%Q 0 4 eq_refl _ eq_refl eq_refl eq_refl eq_refl).
  lia.
Defined.

(** X4. The box of a create drag is flat and covers the clicked voxel.
    With a start point and a start face 0..5 set, and [pos] the start
    point's coordinate on the face's axis, plus one when the face's side
    bit is 0: if [intersectPlane] returns a point whose floor on that axis
    is [pos], then [boxFromDragSelect] returns a box that sits at [pos]
    with size 0 on that axis, and that on each other axis contains the
    unit interval of the start point. *)
Theorem boxFromDragSelect_flat (collab : Collaborators) (h : BoxHandle)
  (r : Ray) (sp : Vector Z) (f : Face) (q0 : Z) (ep : Vector Q) (e : Q) :
  dragStartPoint h = Some sp ->
  dragStartFace h = Some f -> 0 <= f < 6 ->
  getitem sp (Z.shiftr f 1) = Ok q0 ->
  let pos := if Z.land f 1 =? 0 then q0 + 1 else q0 in
  intersectPlane r (Z.shiftr f 1) pos = Ok ep ->
  getitem ep (Z.shiftr f 1) = Ok e ->
  Qfloor e = pos ->
  exists b,
    boxFromDragSelect h r = Ok b /\
    getitem (origin b) (Z.shiftr f 1) = Ok pos /\
    getitem (size b) (Z.shiftr f 1) = Ok 0 /\
    (forall a, 0 <= a < 3 -> a <> Z.shiftr f 1 ->
               exists x lo sz,
                 getitem sp a = Ok x /\
                 getitem (origin b) a = Ok lo /\
                 getitem (size b) a = Ok sz /\
                 lo <= x /\ x + 1 <= lo + sz).
Proof.
  intros Hsp Hsf Hfr Hq pos Hip He Hfl. subst pos.
  unfold boxFromDragSelect. rewrite Hsp, Hsf.
  destruct sp as [x y z], ep as [ex ey ez].
  case_face f; cbn in *; inversion Hq; subst; rewrite Hip; cbn;
    inversion He; subst;
    eexists; (split; [reflexivity|]); cbn;
    (split; [f_equal; lia|]); (split; [f_equal; lia|]);
    intros a Ha Hne; case_axis a; cbn; try contradiction;
    eexists; eexists; eexists;
    (split; [reflexivity|]); (split; [reflexivity|]);
    (split; [reflexivity|]); lia.
Qed.

Lemma boxFromDragSelect_flat_witness :
  exists b,
    @boxFromDragSelect collab_miss creating000 rayDown = Ok b /\
    getitem (origin b) 1 = Ok (0 + 1) /\
    getitem (size b) 1 = Ok 0 /\
    (forall a, 0 <= a < 3 -> a <> 1 ->
               exists x lo sz,
                 getitem (mkVector 0 0 0) a = Ok x /\
                 getitem (origin b) a = Ok lo /\
                 getitem (size b) a = Ok sz /\
                 lo <= x /\ x + 1 <= lo + sz).
Proof.
  refine (boxFromDragSelect_flat collab_miss creating000 rayDown
            (mkVector 0 0 0) 2 0 _ _ eq_refl eq_refl _ eq_refl eq_refl
            eq_refl eq_refl).
  lia.
Defined.

(** ** Hovering, and the move mode *)

Section Hovering.
Context {collab : Collaborators}.

(** X5. The hover update raises nothing, emits nothing and writes to the
    face node only.  Without bounds it does nothing at all.  With bounds,
    the face node is visible exactly when the ray hits a face, it then
    shows that face on the current bounds, and its colour is the move
    colour when the move modifier is held and the resize colour
    otherwise. *)
Theorem updateMouseHover_effect (event : MouseEvent) (w : World) :
  (bounds (self w) = None -> updateMouseHover event w = (Ok tt, w)) /\
  (forall b pt fc,
      bounds (self w) = Some b ->
      boxFaceUnderCursor (Some b) (ray event) = (pt, fc) ->
      exists n,
        updateMouseHover event w =
          (Ok tt, mkWorld (with_faceDragNode n (self w)) (emitted w)) /\
        SelectionFaceNode.visible n =
          match fc with Some _ => true | None => false end /\
        SelectionFaceNode.color n =
          (if truthyZ (moveModifierDown (self w) event)
           then _moveFaceColor else _resizeFaceColor) /\
        match fc with
        | Some face =>
            SelectionFaceNode.face n = Some face /\
            SelectionFaceNode.selectionBox n = Some b
        | None =>
            SelectionFaceNode.face n =
              SelectionFaceNode.face (faceDragNode (self w)) /\
            SelectionFaceNode.selectionBox n =
              SelectionFaceNode.selectionBox (faceDragNode (self w))
        end).
Proof.
  split.
  - intros Hb. unfold updateMouseHover, bind, gets. rewrite Hb. reflexivity.
  - intros b pt fc Hb Hhit.
    unfold updateMouseHover, bind, gets, modify. rewrite Hb, Hhit.
    unfold moveModifierDown.
    destruct fc as [face|]; cbn;
      destruct (truthyZ (Z.land (modifiers event) (modifier (self w))));
      cbn; eexists; (split; [reflexivity|]); cbn; rewrite ?Hb; auto.
Qed.

Lemma resizing_false (h : BoxHandle) (event : MouseEvent) :
  resizable h = false \/ moveModifierDown h event <> 0 ->
  resizing h event = false.
Proof.
  unfold resizing, truthyZ. intros [-> | H]; [reflexivity|].
  apply Z.eqb_neq in H. rewrite H. apply andb_false_r.
Qed.

Lemma mouseMove_no_gesture (event : MouseEvent) (w : World) :
  resizing (self w) event = false \/ idle (self w) ->
  exists n,
    mouseMove event w =
      (Ok tt, mkWorld (with_faceDragNode n (self w)) (emitted w)).
Proof.
  intros H.
  assert (Hstep :
           mouseMove event w =
             if hiliteFace (self w) then updateMouseHover event w
             else (Ok tt, w)).
  { unfold mouseMove, continueMove, bind, gets.
    destruct (resizing (self w) event) eqn:Hgo.
    - destruct H as [H | [Hs Hf]]; [discriminate|].
      rewrite Hs. cbn -[updateMouseHover].
      destruct (bounds (self w)); cbn -[updateMouseHover];
        rewrite ?Hf; cbn -[updateMouseHover];
        destruct (hiliteFace (self w)); reflexivity.
    - cbn -[updateMouseHover]. destruct (hiliteFace (self w)); reflexivity. }
  rewrite Hstep. destruct (hiliteFace (self w)).
  - apply updateMouseHover_frame.
  - exists (faceDragNode (self w)). destruct w as [h e]. destruct h.
    reflexivity.
Qed.

(** X6. In the move mode, that is when [resizable] is false or the move
    modifier is held, a press and a release leave the handle and the
    emitted signals exactly as they were, and a move writes to the face
    node only and emits nothing. *)
Theorem move_mode_keeps_bounds (event : MouseEvent) (w : World) :
  resizable (self w) = false \/ moveModifierDown (self w) event <> 0 ->
  mousePress event w = (Ok tt, w) /\
  mouseRelease event w = (Ok tt, w) /\
  exists n,
    mouseMove event w =
      (Ok tt, mkWorld (with_faceDragNode n (self w)) (emitted w)).
Proof.
  intros H. apply resizing_false in H.
  repeat split.
  - unfold mousePress, beginMove, bind, gets. rewrite H. reflexivity.
  - unfold mouseRelease, endMove, bind, gets. rewrite H. reflexivity.
  - apply mouseMove_no_gesture. left. exact H.
Qed.

(** X7. With no gesture under way, a move in the resize mode is a hover
    only: it raises nothing, emits nothing and writes to the face node
    only, so the bounds stay as they are. *)
Theorem mouseMove_idle_hovers (event : MouseEvent) (w : World) :
  idle (self w) ->
  exists n,
    mouseMove event w =
      (Ok tt, mkWorld (with_faceDragNode n (self w)) (emitted w)).
Proof.
  intros H. apply mouseMove_no_gesture. right. exact H.
Qed.

End Hovering.

Lemma updateMouseHover_effect_witness :
  exists n,
    @updateMouseHover collab_hit3 (plainEvent rayHalf (mkVector 0 0 0))
      (start fresh444) =
      (Ok tt, mkWorld (with_faceDragNode n fresh444) []) /\
    SelectionFaceNode.visible n = true /\
    SelectionFaceNode.color n = _resizeFaceColor /\
    SelectionFaceNode.face n = Some 3 /\
    SelectionFaceNode.selectionBox n = Some box444.
Proof.
  exact (proj2 (@updateMouseHover_effect collab_hit3
                  (plainEvent rayHalf (mkVector 0 0 0)) (start fresh444))
           box444 _ (Some 3) eq_refl eq_refl).
Defined.

(** An event with Shift held. *)
Lemma move_mode_keeps_bounds_witness :
  let event := mkMouseEvent rayHalf ShiftModifier
                 (mkVector 0%Q 0%Q (inject_Z (-1))) (mkVector 0 0 0) in
  @mousePress collab_hit3 event (start fresh444) = (Ok tt, start fresh444) /\
  @mouseRelease collab_hit3 event (start fresh444) = (Ok tt, start fresh444) /\
  exists n,
    @mouseMove collab_hit3 event (start fresh444) =
      (Ok tt, mkWorld (with_faceDragNode n fresh444) []).
Proof.
  cbv zeta.
  apply (@move_mode_keeps_bounds collab_hit3).
  right. vm_compute. discriminate.
Defined.

Lemma mouseMove_idle_hovers_witness :
  exists n,
    @mouseMove collab_hit3 (plainEvent rayHalf (mkVector 0 0 0))
      (start fresh444) =
      (Ok tt, mkWorld (with_faceDragNode n fresh444) []).
Proof.
  apply (@mouseMove_idle_hovers collab_hit3). split; reflexivity.
Defined.

(** ** Which signals the mouse events emit *)

Lemma no_done_app (l1 l2 : list Signal) :
  no_done l1 -> no_done l2 -> no_done (l1 ++ l2).
Proof. intros H1 H2. apply Forall_app. split; assumption. Qed.

Lemma done_last_app (l1 l2 : list Signal) :
  no_done l1 -> done_last l2 -> done_last (l1 ++ l2).
Proof.
  intros H1 [H2 | (l0 & box & isNew & -> & H0)].
  - left. apply no_done_app; assumption.
  - right. exists (l1 ++ l0), box, isNew. split.
    + apply app_assoc.
    + apply no_done_app; assumption.
Qed.

Section SignalRules.
Context {A B : Type} (P Q R : list Signal -> Prop).

Lemma emits_ret (a : A) : P [] -> emits P (ret a).
Proof. intros H w. exists []. cbn. rewrite app_nil_r. auto. Qed.

Lemma emits_gets (f : BoxHandle -> A) : P [] -> emits P (gets f).
Proof. intros H w. exists []. cbn. rewrite app_nil_r. auto. Qed.

Lemma emits_try (f : BoxHandle -> outcome A) : P [] -> emits P (try f).
Proof. intros H w. exists []. cbn. rewrite app_nil_r. auto. Qed.

Lemma emits_modify (f : BoxHandle -> BoxHandle) : P [] -> emits P (modify f).
Proof. intros H w. exists []. cbn. rewrite app_nil_r. auto. Qed.

Lemma emits_emit (s : Signal) : P [s] -> emits P (emit s).
Proof. intros H w. exists [s]. cbn. auto. Qed.

Lemma emits_bind (m : M A) (k : A -> M B) :
  (forall l1 l2, P l1 -> Q l2 -> R (l1 ++ l2)) ->
  (forall l, P l -> R l) ->
  emits P m -> (forall a, emits Q (k a)) -> emits R (bind m k).
Proof.
  intros Happ Hsub Hm Hk w. unfold bind.
  destruct (Hm w) as (l1 & E1 & P1).
  destruct (m w) as [[a | e] w1]; cbn in E1.
  - destruct (Hk a w1) as (l2 & E2 & Q2).
    exists (l1 ++ l2). split.
    + rewrite E2, E1. symmetry. apply app_assoc.
    + apply Happ; assumption.
  - exists l1. cbn. auto.
Qed.

End SignalRules.

Lemma emits_bind_no_done {A B} (m : M A) (k : A -> M B) :
  emits no_done m -> (forall a, emits no_done (k a)) ->
  emits no_done (bind m k).
Proof. apply emits_bind; auto using no_done_app. Qed.

Lemma emits_bind_done_last {A B} (m : M A) (k : A -> M B) :
  emits no_done m -> (forall a, emits done_last (k a)) ->
  emits done_last (bind m k).
Proof.
  apply emits_bind; auto using done_last_app.
  intros l H. left. exact H.
Qed.

Lemma no_done_nil : no_done [].
Proof. constructor. Qed.

Lemma no_done_changed (box : option BoundingBox) : no_done [boundsChanged box].
Proof. repeat constructor. Qed.

Lemma done_last_done (box : option BoundingBox) (isNew : bool) :
  done_last [boundsChangedDone box isNew].
Proof. right. exists [], box, isNew. split; [reflexivity | constructor]. Qed.

Lemma done_last_nil : done_last [].
Proof. left. constructor. Qed.

(** One step of a proof that a method emits no [boundsChangedDone]. *)
Ltac no_done_step :=
  first
    [ apply emits_bind_no_done
    | apply emits_ret; apply no_done_nil
    | apply emits_gets; apply no_done_nil
    | apply emits_try; apply no_done_nil
    | apply emits_modify; apply no_done_nil
    | apply emits_emit; apply no_done_changed
    | match goal with
      | |- forall _, _ => intro
      | |- emits _ (match ?x with _ => _ end) => destruct x
      end ].

Lemma set_bounds_no_done (box : option BoundingBox) :
  emits no_done (set_bounds box).
Proof. unfold set_bounds. repeat no_done_step. Qed.

Section Signals.
Context {collab : Collaborators}.

Lemma updateMouseHover_no_done (event : MouseEvent) :
  emits no_done (updateMouseHover event).
Proof. unfold updateMouseHover. repeat no_done_step. Qed.

Lemma mousePress_no_done (event : MouseEvent) :
  emits no_done (mousePress event).
Proof.
  unfold mousePress, beginResize, beginCreate, beginMove.
  repeat first [apply set_bounds_no_done | no_done_step].
Qed.

Lemma mouseMove_no_done (event : MouseEvent) :
  emits no_done (mouseMove event).
Proof.
  unfold mouseMove, continueCreate, continueResize, continueMove.
  repeat first
    [apply set_bounds_no_done | apply updateMouseHover_no_done | no_done_step].
Qed.

Lemma mouseMoves_no_done (events : list MouseEvent) :
  emits no_done (mouseMoves events).
Proof.
  induction events as [|event rest IH]; cbn.
  - apply emits_ret, no_done_nil.
  - apply emits_bind_no_done; [apply mouseMove_no_done | intro; exact IH].
Qed.

Lemma mouseRelease_done_last (event : MouseEvent) :
  emits done_last (mouseRelease event).
Proof.
  unfold mouseRelease, endCreate, endResize, endMove.
  repeat first
    [ apply emits_bind_done_last
    | apply set_bounds_no_done
    | apply emits_ret; apply done_last_nil
    | apply emits_emit; apply done_last_done
    | no_done_step ].
Qed.

(** X8. [boundsChangedDone] comes from a release only.  Whatever the
    state of the handle, and whether the call returns or raises: a press
    and a move only append [boundsChanged] signals to those emitted so
    far; a release appends at most one [boundsChangedDone], and nothing
    after it. *)
Theorem done_only_on_release (event : MouseEvent) (w : World) :
  (exists l, emitted (snd (mousePress event w)) = emitted w ++ l /\
             no_done l) /\
  (exists l, emitted (snd (mouseMove event w)) = emitted w ++ l /\
             no_done l) /\
  (exists l, emitted (snd (mouseRelease event w)) = emitted w ++ l /\
             done_last l).
Proof.
  repeat split.
  - apply mousePress_no_done.
  - apply mouseMove_no_done.
  - apply mouseRelease_done_last.
Qed.

End Signals.

(** ** The boxes of a handle stay valid *)

Lemma union_nonneg (a b : BoundingBox) :
  nonneg_size a -> nonneg_size (union a b).
Proof.
  destruct a as [[ox oy oz] [sx sy sz]], b as [[px py pz] [tx ty tz]].
  unfold nonneg_size. cbn. lia.
Qed.

Lemma boxFromDragResize_valid (h : BoxHandle) (ob : option BoundingBox)
  (r : Ray) (nb : BoundingBox) :
  valid_bounds ob -> boxFromDragResize h ob r = Ok nb -> nonneg_size nb.
Proof.
  intros Hv H. unfold boxFromDragResize in H.
  destruct (dragResizePoint h r) as [point|]; simpl in H; [|discriminate].
  destruct (dragResizeFace h) as [f|]; simpl in H; [|discriminate].
  destruct ob as [box|]; simpl in H; [|discriminate].
  remember (Z.shiftr f 1) as dd eqn:Edd. clear Edd.
  destruct box as [[ox oy oz] [sx sy sz]], point as [px py pz].
  unfold valid_bounds, nonneg_size in *. simpl in *.
  destruct (truthyZ (Z.land f 1)); case_index dd; simpl in H;
    try discriminate; inversion H; subst nb; simpl; lia.
Qed.

Section ValidBoxes.
Context {collab : Collaborators}.

Lemma boxFromDragSelect_valid (h : BoxHandle) (r : Ray) (nb : BoundingBox) :
  boxFromDragSelect h r = Ok nb -> nonneg_size nb.
Proof.
  unfold boxFromDragSelect. intros H.
  destruct (dragStartFace h) as [f|]; cbn [obind unwrap] in H; [|discriminate].
  remember (Z.shiftr f 1) as dd eqn:Edd. clear Edd.
  destruct (setitem (mkVector 1 1 1) dd 0) as [sz|] eqn:Es;
    cbn [obind unwrap] in H; [|discriminate].
  assert (Hsz : 0 <= vx sz /\ 0 <= vy sz /\ 0 <= vz sz).
  { case_index dd; cbn in Es; inversion Es; cbn; lia. }
  destruct (dragStartPoint h) as [sp|]; cbn [obind unwrap] in H;
    [|discriminate].
  match type of H with
  | obind ?m _ = _ =>
      destruct m as [pt|]; cbn [obind unwrap] in H; [|discriminate]
  end.
  destruct (getitem pt dd) as [pos|]; cbn [obind unwrap] in H;
    [|discriminate].
  destruct (intersectPlane r dd pos) as [ep|]; cbn [obind unwrap] in H;
    [|discriminate].
  inversion H. apply union_nonneg. exact Hsz.
Qed.

Section KeepRules.
Context {A B : Type} (I : BoxHandle -> Prop).

Lemma keeps_ret (a : A) : keeps I (ret a) (fun _ => True).
Proof. intros w H. cbn. auto. Qed.

Lemma keeps_gets (f : BoxHandle -> A) : keeps I (gets f) (fun _ => True).
Proof. intros w H. cbn. auto. Qed.

Lemma keeps_emit (s : Signal) : keeps I (emit s) (fun _ => True).
Proof. intros w H. cbn. auto. Qed.

Lemma keeps_modify (f : BoxHandle -> BoxHandle) :
  (forall h, I h -> I (f h)) -> keeps I (modify f) (fun _ => True).
Proof. intros Hf w H. cbn. auto. Qed.

Lemma keeps_try (f : BoxHandle -> outcome A) (R : A -> Prop) :
  (forall h a, I h -> f h = Ok a -> R a) -> keeps I (try f) R.
Proof. intros Hf w H. cbn. split; [exact H | intros a E; eauto]. Qed.

Lemma keeps_bind (m : M A) (k : A -> M B) (R : A -> Prop) (R' : B -> Prop) :
  keeps I m R -> (forall a, R a -> keeps I (k a) R') ->
  keeps I (bind m k) R'.
Proof.
  intros Hm Hk w H. unfold bind.
  destruct (Hm w H) as [H1 HR].
  destruct (m w) as [[a | e] w1]; cbn in *.
  - apply Hk; auto.
  - split; [exact H1 | discriminate].
Qed.

Lemma keeps_weaken (m : M A) (R : A -> Prop) :
  keeps I m R -> keeps I m (fun _ => True).
Proof. intros Hm w H. split; [apply Hm; exact H | auto]. Qed.

End KeepRules.

(** Assignments that leave [bounds] and [oldBounds] alone, or store a valid
    box. *)
Ltac valid_assign :=
  let h := fresh "h" in
  let H1 := fresh in
  let H2 := fresh in
  intros h [H1 H2]; split; cbn; auto; try exact I.

Lemma set_bounds_valid (box : option BoundingBox) :
  valid_bounds box -> keeps valid_handle (set_bounds box) (fun _ => True).
Proof.
  intros Hv. unfold set_bounds.
  eapply keeps_bind; [apply keeps_gets|]. intros cur _.
  destruct (bounds_ne box cur); [|apply keeps_ret].
  eapply keeps_bind; [apply keeps_modify; valid_assign|]. intros _ _.
  eapply keeps_bind; [apply keeps_modify; valid_assign|]. intros _ _.
  apply keeps_emit.
Qed.

(** One step of a proof that a method keeps the boxes valid. *)
Ltac valid_step :=
  first
    [ apply keeps_ret
    | apply keeps_gets
    | apply keeps_emit
    | apply keeps_modify; valid_assign
    | apply set_bounds_valid; solve [exact I | assumption]
    | eapply keeps_weaken; apply keeps_try; intros; exact I
    | eapply keeps_bind;
      [ apply keeps_try;
        first [ intros ? ? [? ?] ?; eapply boxFromDragResize_valid; eassumption
              | intros ? ? ? ?; eapply boxFromDragSelect_valid; eassumption ]
      | cbv beta ]
    | eapply keeps_bind; [solve [repeat valid_step] | cbv beta]
    | match goal with
      | |- forall _, _ => intro
      | |- keeps _ (match ?x with _ => _ end) _ => destruct x
      end ].

Lemma updateMouseHover_valid (event : MouseEvent) :
  keeps valid_handle (updateMouseHover event) (fun _ => True).
Proof. unfold updateMouseHover. repeat valid_step. Qed.

Lemma mousePress_valid (event : MouseEvent) :
  keeps valid_handle (mousePress event) (fun _ => True).
Proof.
  unfold mousePress, beginResize, beginCreate, beginMove.
  repeat valid_step.
Qed.

Lemma mouseMove_valid (event : MouseEvent) :
  keeps valid_handle (mouseMove event) (fun _ => True).
Proof.
  unfold mouseMove, continueCreate, continueResize, continueMove.
  repeat first [apply updateMouseHover_valid | valid_step].
Qed.

Lemma mouseRelease_valid (event : MouseEvent) :
  keeps valid_handle (mouseRelease event) (fun _ => True).
Proof.
  unfold mouseRelease, endCreate, endResize, endMove.
  repeat valid_step.
Qed.

Lemma calls_valid (cs : list MouseCall) :
  keeps valid_handle (calls cs) (fun _ => True).
Proof.
  induction cs as [|c rest IH]; cbn [calls].
  - apply keeps_ret.
  - eapply keeps_bind; [|intros _ _; exact IH].
    destruct c; cbn [call];
      [apply mousePress_valid | apply mouseMove_valid
       | apply mouseRelease_valid].
Qed.

(** X9. The mouse events keep the boxes valid.  If the bounds and the box
    a resize started from are each unset or of non-negative size on every
    axis, they still are after a press, after a move and after a release,
    whether the call returns or raises; and so they are after any sequence
    of such calls. *)
Theorem mouse_events_keep_boxes_valid (event : MouseEvent)
  (cs : list MouseCall) (w : World) :
  valid_handle (self w) ->
  valid_handle (self (snd (mousePress event w))) /\
  valid_handle (self (snd (mouseMove event w))) /\
  valid_handle (self (snd (mouseRelease event w))) /\
  valid_handle (self (snd (calls cs w))).
Proof.
  intros H.
  split; [apply mousePress_valid; exact H|].
  split; [apply mouseMove_valid; exact H|].
  split; [apply mouseRelease_valid; exact H|].
  apply calls_valid; exact H.
Qed.

End ValidBoxes.

Lemma mouse_events_keep_boxes_valid_witness :
  let event := plainEvent rayHalf (mkVector 0 0 0) in
  let w := start fresh444 in
  valid_handle (self (snd (@mousePress collab_hit3 event w))) /\
  valid_handle (self (snd (@mouseMove collab_hit3 event w))) /\
  valid_handle (self (snd (@mouseRelease collab_hit3 event w))) /\
  valid_handle
    (self (snd (@calls collab_hit3 [Press event; Move event; Release event] w))).
Proof.
  cbv zeta. apply (@mouse_events_keep_boxes_valid collab_hit3).
  split; cbn; [unfold nonneg_size; cbn; lia | exact I].
Defined.

(** ** Whole drags *)

Lemma same_but_nodes_trans (h1 h2 h3 : BoxHandle) :
  same_but_nodes h1 h2 -> same_but_nodes h2 h3 -> same_but_nodes h1 h3.
Proof.
  intros (bn & fn & ->) (bn' & fn' & ->). exists bn', fn'. reflexivity.
Qed.

Lemma same_but_faceDragNode (h : BoxHandle) (n : SelectionFaceNode.t) :
  same_but_nodes h (with_faceDragNode n h).
Proof. exists (boxNode h), n. destruct h. reflexivity. Qed.

Lemma set_bounds_ok (box : option BoundingBox) (w : World) :
  exists w',
    set_bounds box w = (Ok tt, w') /\
    bounds (self w') = box /\
    same_but_nodes (self w) (self w') /\
    (SelectionFaceNode.selectionBox (faceDragNode (self w)) = box ->
     SelectionFaceNode.selectionBox (faceDragNode (self w')) = box).
Proof.
  unfold set_bounds, bind, gets.
  destruct (bounds_ne box (bounds (self w))) eqn:E.
  - cbn. eexists. split; [reflexivity|]. cbn. repeat split.
    eexists _, _. reflexivity.
  - apply bounds_ne_false in E. exists w. cbn. repeat split.
    + congruence.
    + apply same_but_nodes_refl.
    + auto.
Qed.

Section Drags.
Context {collab : Collaborators}.

Lemma same_but_nodes_resizing (h h' : BoxHandle) (event : MouseEvent) :
  same_but_nodes h h' -> resizing h' event = resizing h event.
Proof. intros (bn & fn & ->). reflexivity. Qed.

Lemma same_but_nodes_boxFromDragResize (h h' : BoxHandle) (r : Ray) :
  same_but_nodes h h' ->
  boxFromDragResize h' (oldBounds h') r = boxFromDragResize h (oldBounds h) r.
Proof. intros (bn & fn & ->). reflexivity. Qed.

Lemma same_but_nodes_boxFromDragSelect (h h' : BoxHandle) (r : Ray) :
  same_but_nodes h h' -> boxFromDragSelect h' r = boxFromDragSelect h r.
Proof. intros (bn & fn & ->). reflexivity. Qed.

Lemma same_but_nodes_resize_under_way (h h' : BoxHandle) (b : BoundingBox) :
  same_but_nodes h h' -> bounds h' = Some b ->
  resize_under_way h = true -> resize_under_way h' = true.
Proof.
  intros (bn & fn & ->) Hb. unfold resize_under_way, bounds in *.
  cbn in *. rewrite Hb.
  destruct (dragStartPoint h), (dragResizeFace h), (dragResizeDimension h),
    (dragResizePosition h), (oldBounds h),
    (SelectionBoxNode.selectionBox (boxNode h)); auto; discriminate.
Qed.

Lemma same_but_nodes_create_under_way (h h' : BoxHandle) :
  same_but_nodes h h' -> create_under_way h' = create_under_way h.
Proof. intros (bn & fn & ->). reflexivity. Qed.

Lemma same_but_nodes_idle (h h' : BoxHandle) :
  same_but_nodes h h' -> idle h -> idle h'.
Proof. intros (bn & fn & ->) H. exact H. Qed.

Lemma resize_under_way_inv (h : BoxHandle) :
  resize_under_way h = true ->
  exists f d p ob b,
    dragStartPoint h = None /\
    dragResizeFace h = Some f /\ 0 <= f < 6 /\
    dragResizeDimension h = Some d /\ 0 <= d < 3 /\
    dragResizePosition h = Some p /\
    oldBounds h = Some ob /\
    bounds h = Some b.
Proof.
  unfold resize_under_way. intros H.
  destruct (dragStartPoint h); [discriminate|].
  destruct (dragResizeFace h) as [f|]; [|discriminate].
  destruct (dragResizeDimension h) as [d|]; [|discriminate].
  destruct (dragResizePosition h) as [p|]; [|discriminate].
  destruct (oldBounds h) as [ob|]; [|discriminate].
  destruct (bounds h) as [b|]; [|discriminate].
  exists f, d, p, ob, b. repeat split; lia.
Qed.

Lemma resize_under_way_box (h : BoxHandle) (r : Ray) :
  resize_under_way h = true ->
  exists nb, boxFromDragResize h (oldBounds h) r = Ok nb.
Proof.
  intros H.
  destruct (resize_under_way_inv h H)
    as (f & d & p & ob & b & _ & Hf & Hfr & Hd & Hdr & Hp & Hob & _).
  rewrite Hob. eapply boxFromDragResize_ready; eassumption.
Qed.

(** The hover update keeps the face node's box equal to the bounds. *)
Lemma updateMouseHover_in_step (event : MouseEvent) (w : World) :
  SelectionFaceNode.selectionBox (faceDragNode (self w)) = bounds (self w) ->
  exists n,
    updateMouseHover event w =
      (Ok tt, mkWorld (with_faceDragNode n (self w)) (emitted w)) /\
    SelectionFaceNode.selectionBox n = bounds (self w).
Proof.
  intros Heq. unfold updateMouseHover, bind, gets, modify.
  destruct (bounds (self w)) as [b|] eqn:Hb.
  - destruct (boxFaceUnderCursor (Some b) (ray event)) as [pt [fc|]]; cbn;
      match goal with
      | |- context [truthyZ ?a] => destruct (truthyZ a)
      end; cbn; eexists; (split; [reflexivity|]); cbn; auto.
  - exists (faceDragNode (self w)). split; [|exact Heq].
    destruct w as [h e]. destruct h. reflexivity.
Qed.

Lemma continueResize_ok (event : MouseEvent) (w : World) (nb : BoundingBox) :
  boxFromDragResize (self w) (oldBounds (self w)) (ray event) = Ok nb ->
  exists w',
    continueResize event w = (Ok tt, w') /\
    bounds (self w') = Some nb /\
    SelectionFaceNode.selectionBox (faceDragNode (self w')) = Some nb /\
    same_but_nodes (self w) (self w') /\
    (exists l, emitted w' = emitted w ++ l /\ no_done l).
Proof.
  intros Hnb. unfold continueResize, bind, try, modify.
  rewrite Hnb. cbn [fst snd self emitted].
  match goal with
  | |- context [boxFromDragResize ?h ?o ?r] =>
      change (boxFromDragResize h o r)
        with (boxFromDragResize (self w) (oldBounds (self w)) (ray event))
  end.
  rewrite Hnb.
  match goal with
  | |- context [set_bounds ?b ?w1] =>
      destruct (set_bounds_ok b w1) as (w' & E & Hb & Hs & Hn);
      destruct (set_bounds_no_done b w1) as (l & El & Hl);
      rewrite E in El |- *
  end.
  exists w'. split; [reflexivity|].
  split; [exact Hb|].
  split; [apply Hn; reflexivity|].
  split.
  - eapply same_but_nodes_trans; [|exact Hs].
    eexists _, _. reflexivity.
  - exists l. split; [exact El | exact Hl].
Qed.

Lemma mouseMove_unfold (event : MouseEvent) (w : World) :
  mouseMove event w =
    let (o, w1) :=
      if resizing (self w) event then
        match dragStartPoint (self w) with
        | Some _ => continueCreate event w
        | None =>
            match bounds (self w), dragResizeFace (self w) with
            | Some _, Some _ => continueResize event w
            | _, _ => (Ok tt, w)
            end
        end
      else (Ok tt, w) in
    match o with
    | Ok _ =>
        if hiliteFace (self w1) then updateMouseHover event w1
        else (Ok tt, w1)
    | Raise e => (Raise e, w1)
    end.
Proof.
  unfold mouseMove, continueMove, bind, gets, ret.
  destruct (resizing (self w) event).
  - destruct (dragStartPoint (self w)).
    + destruct (continueCreate event w) as [[[]|e] w1]; [|reflexivity].
      destruct (hiliteFace (self w1)); reflexivity.
    + destruct (bounds (self w));
        [|destruct (hiliteFace (self w)); reflexivity].
      destruct (dragResizeFace (self w));
        [|destruct (hiliteFace (self w)); reflexivity].
      destruct (continueResize event w) as [[[]|e] w1]; [|reflexivity].
      destruct (hiliteFace (self w1)); reflexivity.
  - destruct (hiliteFace (self w)); reflexivity.
Qed.

Lemma mouseRelease_unfold (event : MouseEvent) (w : World) :
  mouseRelease event w =
    if resizing (self w) event then
      match dragStartPoint (self w) with
      | Some _ => endCreate event w
      | None =>
          match dragResizeFace (self w) with
          | Some _ => endResize event w
          | None => (Ok tt, w)
          end
      end
    else (Ok tt, w).
Proof.
  unfold mouseRelease, endMove, bind, gets, ret.
  destruct (resizing (self w) event); [|reflexivity].
  destruct (dragStartPoint (self w)); [reflexivity|].
  destruct (dragResizeFace (self w)); reflexivity.
Qed.

(** The hover step that ends a move, from a world whose face node shows
    the bounds. *)
Lemma hover_step (event : MouseEvent) (w1 : World) :
  SelectionFaceNode.selectionBox (faceDragNode (self w1)) = bounds (self w1) ->
  exists w',
    (if hiliteFace (self w1) then updateMouseHover event w1 else (Ok tt, w1))
      = (Ok tt, w') /\
    bounds (self w') = bounds (self w1) /\
    SelectionFaceNode.selectionBox (faceDragNode (self w')) = bounds (self w1) /\
    same_but_nodes (self w1) (self w') /\
    emitted w' = emitted w1.
Proof.
  intros Heq. destruct (hiliteFace (self w1)).
  - destruct (updateMouseHover_in_step event w1 Heq) as (n & E & Hn).
    rewrite E. eexists. split; [reflexivity|]. cbn.
    repeat split; auto. apply same_but_faceDragNode.
  - exists w1. repeat split; auto. apply same_but_nodes_refl.
Qed.

Lemma mouseMove_resize (event : MouseEvent) (w : World) :
  resizing (self w) event = true ->
  resize_under_way (self w) = true ->
  exists w' nb,
    boxFromDragResize (self w) (oldBounds (self w)) (ray event) = Ok nb /\
    mouseMove event w = (Ok tt, w') /\
    bounds (self w') = Some nb /\
    SelectionFaceNode.selectionBox (faceDragNode (self w')) = Some nb /\
    same_but_nodes (self w) (self w') /\
    (exists l, emitted w' = emitted w ++ l /\ no_done l).
Proof.
  intros Hgo Hru.
  destruct (resize_under_way_box (self w) (ray event) Hru) as [nb Hnb].
  destruct (resize_under_way_inv (self w) Hru)
    as (f & d & p & ob & b & Hsp & Hf & _ & _ & _ & _ & _ & Hb).
  destruct (continueResize_ok event w nb Hnb)
    as (w1 & E1 & Hb1 & Hn1 & Hs1 & l & El & Hl).
  destruct (hover_step event w1) as (w' & E2 & Hb2 & Hn2 & Hs2 & Ee);
    [congruence|].
  exists w', nb. split; [exact Hnb|].
  split.
  { rewrite mouseMove_unfold, Hgo, Hsp, Hb, Hf, E1. exact E2. }
  split; [congruence|]. split; [congruence|].
  split; [eapply same_but_nodes_trans; eassumption|].
  exists l. split; [congruence | exact Hl].
Qed.

Lemma endResize_ok (event : MouseEvent) (w : World) (nb : BoundingBox) :
  boxFromDragResize (self w) (oldBounds (self w)) (ray event) = Ok nb ->
  exists w',
    endResize event w = (Ok tt, w') /\
    bounds (self w') = Some nb /\
    dragResizeFace (self w') = None /\
    oldBounds (self w') = None /\
    dragStartPoint (self w') = dragStartPoint (self w) /\
    (exists l, emitted w' = emitted w ++ l ++ [boundsChangedDone (Some nb) false]
               /\ no_done l).
Proof.
  intros Hnb. unfold endResize, bind, try.
  rewrite Hnb.
  destruct (set_bounds_ok (Some nb) w) as (w1 & E & Hb & (bn & fn & Hs) & _).
  destruct (set_bounds_no_done (Some nb) w) as (l & El & Hl).
  rewrite E in El |- *. cbn in El.
  cbn.
  match goal with
  | |- context [boundsChangedDone (bounds ?h) false] =>
      change (bounds h) with (bounds (self w1))
  end.
  rewrite Hb. eexists. split; [reflexivity|].
  split; [exact Hb|]. split; [reflexivity|]. split; [reflexivity|].
  split; [cbn; rewrite Hs; reflexivity|]. cbn.
  exists l. split; [|exact Hl]. rewrite El. symmetry. apply app_assoc.
Qed.

Lemma mouseRelease_resize (event : MouseEvent) (w : World) :
  resizing (self w) event = true ->
  resize_under_way (self w) = true ->
  exists w' nb,
    boxFromDragResize (self w) (oldBounds (self w)) (ray event) = Ok nb /\
    mouseRelease event w = (Ok tt, w') /\
    bounds (self w') = Some nb /\
    idle (self w') /\
    (exists l, emitted w' = emitted w ++ l ++ [boundsChangedDone (Some nb) false]
               /\ no_done l).
Proof.
  intros Hgo Hru.
  destruct (resize_under_way_box (self w) (ray event) Hru) as [nb Hnb].
  destruct (resize_under_way_inv (self w) Hru)
    as (f & d & p & ob & b & Hsp & Hf & _).
  destruct (endResize_ok event w nb Hnb)
    as (w' & E & Hb & Hf' & _ & Hsp' & Hl).
  exists w', nb. split; [exact Hnb|].
  split; [rewrite mouseRelease_unfold, Hgo, Hsp, Hf; exact E|].
  split; [exact Hb|]. split; [|exact Hl].
  split; congruence.
Qed.

Lemma mouseMoves_resize (events : list MouseEvent) (w : World) :
  Forall (fun e => resizing (self w) e = true) events ->
  resize_under_way (self w) = true ->
  exists w',
    mouseMoves events w = (Ok tt, w') /\
    same_but_nodes (self w) (self w') /\
    resize_under_way (self w') = true /\
    (exists l, emitted w' = emitted w ++ l /\ no_done l).
Proof.
  revert w. induction events as [|event rest IH]; intros w Hall Hru.
  - exists w. cbn. repeat split; auto using same_but_nodes_refl.
    exists []. split; [symmetry; apply app_nil_r | constructor].
  - inversion Hall as [|? ? Hgo Hrest]; subst.
    destruct (mouseMove_resize event w Hgo Hru)
      as (w1 & nb & _ & E1 & Hb1 & _ & Hs1 & l1 & El1 & Hl1).
    destruct (IH w1) as (w' & E2 & Hs2 & Hru2 & l2 & El2 & Hl2).
    + eapply Forall_impl; [|exact Hrest]. intros e He.
      rewrite (same_but_nodes_resizing _ _ e Hs1). exact He.
    + eapply same_but_nodes_resize_under_way; eassumption.
    + exists w'. cbn. unfold bind. rewrite E1.
      split; [exact E2|].
      split; [eapply same_but_nodes_trans; eassumption|].
      split; [exact Hru2|].
      exists (l1 ++ l2). split; [|apply no_done_app; assumption].
      rewrite El2, El1. symmetry. apply app_assoc.
Qed.

Lemma beginResize_hit (event : MouseEvent) (w : World) (b : BoundingBox)
  (pt : Vector Q) (f : Face) :
  bounds (self w) = Some b ->
  boxFaceUnderCursor (Some b) (ray event) = (pt, Some f) ->
  exists d p,
    0 <= d < 3 /\
    beginResize event w =
      (Ok (Some true),
       mkWorld
         (with_oldBounds (Some b)
            (with_dragResizePosition (Some p)
               (with_dragResizeDimension (Some d)
                  (with_dragResizeFace (Some f) (self w)))))
         (emitted w)).
Proof.
  intros Hb Hhit. unfold beginResize, bind, gets. rewrite Hb, Hhit.
  destruct (cameraVector event) as [cx cy cz], pt as [px py pz].
  destruct (mod3_cases (dimension f + 1)) as [E | [E | E]];
    rewrite E;
    [ change ((0 + 1) mod 3) with 1
    | change ((1 + 1) mod 3) with 2
    | change ((2 + 1) mod 3) with 0 ];
    cbn -[Qgtb];
    match goal with
    | |- context [Qgtb ?x ?y] => destruct (Qgtb x y)
    end;
    cbn; eexists; eexists; apply and_comm;
    (split; [rewrite <- Hb; reflexivity | lia]).
Qed.

Lemma mousePress_hit (event : MouseEvent) (w : World) (b : BoundingBox)
  (pt : Vector Q) (f : Face) :
  resizing (self w) event = true ->
  dragStartPoint (self w) = None ->
  bounds (self w) = Some b ->
  boxFaceUnderCursor (Some b) (ray event) = (pt, Some f) -> 0 <= f < 6 ->
  exists w',
    mousePress event w = (Ok tt, w') /\
    resize_under_way (self w') = true /\
    oldBounds (self w') = Some b /\
    emitted w' = emitted w /\
    (forall e, resizing (self w') e = resizing (self w) e).
Proof.
  intros Hgo Hsp Hb Hhit Hf.
  destruct (beginResize_hit event w b pt f Hb Hhit) as (d & p & Hd & E).
  unfold mousePress, bind, gets. rewrite Hgo. cbn -[beginResize].
  rewrite Hb. rewrite E. cbn.
  match goal with
  | |- context [match bounds ?h with _ => _ end] =>
      change (bounds h) with (bounds (self w))
  end.
  rewrite Hb.
  eexists. split; [reflexivity|]. cbn.
  split.
  - unfold resize_under_way. cbn.
    match goal with
    | |- context [match bounds ?h with _ => _ end] =>
        change (bounds h) with (bounds (self w))
    end.
    rewrite Hsp, Hb.
    apply andb_true_iff. split; [|apply Z.ltb_lt; lia].
    apply andb_true_iff. split; [|apply Z.leb_le; lia].
    apply andb_true_iff. split; [apply Z.leb_le | apply Z.ltb_lt]; lia.
  - repeat split.
Qed.

Lemma Forall_resizing (h : BoxHandle) (events : list MouseEvent) :
  resizable h = true ->
  Forall (fun e => moveModifierDown h e = 0) events ->
  Forall (fun e => resizing h e = true) events.
Proof.
  intros Hr. apply Forall_impl. intros e He. apply resizing_true; assumption.
Qed.

(** X10. A whole resize drag.  From a handle with bounds [b], no create
    gesture under way and [resizable] true: a press whose ray hits a face
    0..5, then any number of moves, then a release, no event with the move
    modifier held, returns without an exception.  The bounds at the end
    are the box that [boxFromDragResize] gives for [b] and the ray of the
    release; no gesture is under way any more; and the last signal emitted
    is [boundsChangedDone] with that box and [False], the only
    [boundsChangedDone] of the drag. *)
Theorem resize_drag (w : World) (press : MouseEvent)
  (moves : list MouseEvent) (release : MouseEvent) (b : BoundingBox)
  (pt : Vector Q) (f : Face) :
  resizable (self w) = true ->
  Forall (fun e => moveModifierDown (self w) e = 0)
    (press :: moves ++ [release]) ->
  dragStartPoint (self w) = None ->
  bounds (self w) = Some b ->
  boxFaceUnderCursor (Some b) (ray press) = (pt, Some f) -> 0 <= f < 6 ->
  exists w' nb l,
    drag press moves release w = (Ok tt, w') /\
    boxFromDragResize (self (snd (mousePress press w))) (Some b) (ray release)
      = Ok nb /\
    bounds (self w') = Some nb /\
    idle (self w') /\
    emitted w' = emitted w ++ l ++ [boundsChangedDone (Some nb) false] /\
    no_done l.
Proof.
  intros Hr Hall Hsp Hb Hhit Hf.
  apply (Forall_resizing _ _ Hr) in Hall.
  inversion Hall as [|? ? Hgo0 Hall']; subst.
  apply Forall_app in Hall'. destruct Hall' as [Hmoves Hrel].
  inversion Hrel as [|? ? Hgo2 _]; subst.
  destruct (mousePress_hit press w b pt f Hgo0 Hsp Hb Hhit Hf)
    as (w1 & E1 & Hru1 & Hob1 & Ee1 & Hres1).
  destruct (mouseMoves_resize moves w1) as (w2 & E2 & Hs2 & Hru2 & l & El & Hl);
    [|exact Hru1|].
  { eapply Forall_impl; [|exact Hmoves]. intros e He.
    rewrite Hres1. exact He. }
  destruct (mouseRelease_resize release w2)
    as (w' & nb & Hnb & E3 & Hb3 & Hidle & l3 & El3 & Hl3);
    [|exact Hru2|].
  { rewrite (same_but_nodes_resizing _ _ release Hs2), Hres1. exact Hgo2. }
  exists w', nb, (l ++ l3).
  split; [unfold drag, bind; rewrite E1, E2; exact E3|].
  split.
  { rewrite E1. cbn [snd].
    rewrite <- Hob1, <- (same_but_nodes_boxFromDragResize _ _ _ Hs2).
    exact Hnb. }
  split; [exact Hb3|]. split; [exact Hidle|].
  split; [|apply no_done_app; assumption].
  rewrite El3, El, Ee1. rewrite <- !app_assoc. reflexivity.
Qed.

(** X11. During a resize the bounds follow the current ray only.  With a
    resize gesture under way, a move sets the bounds, and the box of the
    face node, to the box that [boxFromDragResize] gives for the box the
    resize started from and the ray of that move; so after two moves the
    bounds are what the second move alone would have given. *)
Theorem resize_move_forgets_path (w : World) (e1 e2 : MouseEvent) :
  resize_under_way (self w) = true ->
  resizing (self w) e1 = true ->
  resizing (self w) e2 = true ->
  exists w' nb,
    boxFromDragResize (self w) (oldBounds (self w)) (ray e2) = Ok nb /\
    (mouseMove e1 ;; mouseMove e2)%handle w = (Ok tt, w') /\
    bounds (self w') = Some nb /\
    SelectionFaceNode.selectionBox (faceDragNode (self w')) = Some nb /\
    bounds (self (snd (mouseMove e2 w))) = Some nb.
Proof.
  intros Hru H1 H2.
  destruct (mouseMove_resize e1 w H1 Hru)
    as (w1 & nb1 & _ & E1 & Hb1 & _ & Hs1 & _).
  destruct (mouseMove_resize e2 w1) as (w' & nb & Hnb & E2 & Hb2 & Hn2 & _).
  { rewrite (same_but_nodes_resizing _ _ e2 Hs1). exact H2. }
  { eapply same_but_nodes_resize_under_way; eassumption. }
  rewrite (same_but_nodes_boxFromDragResize _ _ _ Hs1) in Hnb.
  destruct (mouseMove_resize e2 w H2 Hru) as (v & nb' & Hnb' & E & Hb & _).
  exists w', nb. split; [exact Hnb|].
  split; [unfold bind; rewrite E1; exact E2|].
  split; [exact Hb2|]. split; [exact Hn2|].
  rewrite E. cbn. congruence.
Qed.

Lemma create_under_way_box (h : BoxHandle) (r : Ray) :
  create_under_way h = true ->
  (forall dim pos, 0 <= dim < 3 -> exists q, intersectPlane r dim pos = Ok q) ->
  exists sp nb, dragStartPoint h = Some sp /\ boxFromDragSelect h r = Ok nb.
Proof.
  unfold create_under_way. intros H Hip.
  destruct (dragStartPoint h) as [sp|] eqn:Hsp; [|discriminate].
  destruct (dragStartFace h) as [sf|] eqn:Hsf; [|discriminate].
  apply andb_true_iff in H. destruct H as [H1 H2].
  apply Z.leb_le in H1. apply Z.ltb_lt in H2.
  destruct (boxFromDragSelect_ready h r sp sf Hsp Hsf (conj H1 H2) Hip)
    as [nb Hnb].
  exists sp, nb. split; [reflexivity | exact Hnb].
Qed.

Lemma hover_step_frame (event : MouseEvent) (w1 : World) :
  exists w',
    (if hiliteFace (self w1) then updateMouseHover event w1 else (Ok tt, w1))
      = (Ok tt, w') /\
    bounds (self w') = bounds (self w1) /\
    same_but_nodes (self w1) (self w') /\
    emitted w' = emitted w1.
Proof.
  destruct (hiliteFace (self w1)).
  - destruct (updateMouseHover_frame event w1) as (n & E).
    rewrite E. eexists. split; [reflexivity|]. cbn.
    repeat split. apply same_but_faceDragNode.
  - exists w1. repeat split. apply same_but_nodes_refl.
Qed.

Lemma continueCreate_ok (event : MouseEvent) (w : World) (nb : BoundingBox) :
  boxFromDragSelect (self w) (ray event) = Ok nb ->
  exists w',
    continueCreate event w = (Ok tt, w') /\
    bounds (self w') = Some nb /\
    same_but_nodes (self w) (self w') /\
    (exists l, emitted w' = emitted w ++ l /\ no_done l).
Proof.
  intros Hnb. unfold continueCreate, bind, try. rewrite Hnb.
  destruct (set_bounds_ok (Some nb) w) as (w' & E & Hb & Hs & _).
  destruct (set_bounds_no_done (Some nb) w) as (l & El & Hl).
  rewrite E in El |- *. exists w'. repeat split; auto. exists l. auto.
Qed.

Lemma mouseMove_creating (event : MouseEvent) (w : World) :
  resizing (self w) event = true ->
  create_under_way (self w) = true ->
  (forall dim pos, 0 <= dim < 3 ->
                   exists q, intersectPlane (ray event) dim pos = Ok q) ->
  exists w' nb,
    boxFromDragSelect (self w) (ray event) = Ok nb /\
    mouseMove event w = (Ok tt, w') /\
    bounds (self w') = Some nb /\
    same_but_nodes (self w) (self w') /\
    (exists l, emitted w' = emitted w ++ l /\ no_done l).
Proof.
  intros Hgo Hcu Hip.
  destruct (create_under_way_box (self w) (ray event) Hcu Hip)
    as (sp & nb & Hsp & Hnb).
  destruct (continueCreate_ok event w nb Hnb)
    as (w1 & E1 & Hb1 & Hs1 & l & El & Hl).
  destruct (hover_step_frame event w1) as (w' & E2 & Hb2 & Hs2 & Ee).
  exists w', nb. split; [exact Hnb|].
  split; [rewrite mouseMove_unfold, Hgo, Hsp, E1; exact E2|].
  split; [congruence|].
  split; [eapply same_but_nodes_trans; eassumption|].
  exists l. split; [congruence | exact Hl].
Qed.

Lemma mouseMoves_creating (events : list MouseEvent) (w : World) :
  Forall (fun e => resizing (self w) e = true) events ->
  Forall (fun e => forall dim pos,
              0 <= dim < 3 -> exists q, intersectPlane (ray e) dim pos = Ok q)
    events ->
  create_under_way (self w) = true ->
  exists w',
    mouseMoves events w = (Ok tt, w') /\
    same_but_nodes (self w) (self w') /\
    (exists l, emitted w' = emitted w ++ l /\ no_done l).
Proof.
  revert w. induction events as [|event rest IH]; intros w Hall Hips Hcu.
  - exists w. cbn. repeat split; auto using same_but_nodes_refl.
    exists []. split; [symmetry; apply app_nil_r | constructor].
  - inversion Hall as [|? ? Hgo Hrest]; subst.
    inversion Hips as [|? ? Hip Hips']; subst.
    destruct (mouseMove_creating event w Hgo Hcu Hip)
      as (w1 & nb & _ & E1 & _ & Hs1 & l1 & El1 & Hl1).
    destruct (IH w1) as (w' & E2 & Hs2 & l2 & El2 & Hl2).
    + eapply Forall_impl; [|exact Hrest]. intros e He.
      rewrite (same_but_nodes_resizing _ _ e Hs1). exact He.
    + exact Hips'.
    + rewrite (same_but_nodes_create_under_way _ _ Hs1). exact Hcu.
    + exists w'. cbn. unfold bind. rewrite E1.
      split; [exact E2|].
      split; [eapply same_but_nodes_trans; eassumption|].
      exists (l1 ++ l2). split; [|apply no_done_app; assumption].
      rewrite El2, El1. symmetry. apply app_assoc.
Qed.

Lemma endCreate_ok (event : MouseEvent) (w : World) (nb : BoundingBox) :
  boxFromDragSelect (self w) (ray event) = Ok nb ->
  exists w',
    endCreate event w = (Ok tt, w') /\
    bounds (self w') = Some nb /\
    dragStartPoint (self w') = None /\
    dragResizeFace (self w') = dragResizeFace (self w) /\
    (exists l, emitted w' = emitted w ++ l ++ [boundsChangedDone (Some nb) true]
               /\ no_done l).
Proof.
  intros Hnb. unfold endCreate, bind, try, modify. rewrite Hnb.
  cbn [fst snd self emitted].
  match goal with
  | |- context [set_bounds ?b ?w1] =>
      destruct (set_bounds_ok b w1) as (w' & E & Hb & (bn & fn & Hs) & _);
      destruct (set_bounds_no_done b w1) as (l & El & Hl);
      rewrite E in El |- *
  end.
  cbn in El. eexists. split; [reflexivity|]. cbn.
  split; [exact Hb|].
  split; [rewrite Hs; reflexivity|].
  split; [rewrite Hs; reflexivity|].
  exists l. split; [|exact Hl]. rewrite El. symmetry. apply app_assoc.
Qed.

(** A press in the resize mode, without bounds or with bounds that the ray
    misses, begins a create gesture. *)
Lemma mousePress_creates (event : MouseEvent) (w : World) :
  resizing (self w) event = true ->
  bounds (self w) = None \/
  (exists b pt, bounds (self w) = Some b /\
                boxFaceUnderCursor (Some b) (ray event) = (pt, None)) ->
  exists w',
    mousePress event w = (Ok tt, w') /\
    create_under_way (self w') = true /\
    dragResizeFace (self w') = dragResizeFace (self w) /\
    (forall e, resizing (self w') e = resizing (self w) e) /\
    (exists l, emitted w' = emitted w ++ l /\ no_done l).
Proof.
  intros Hgo [Hb | (b & pt & Hb & Hmiss)].
  - rewrite (mousePress_begins_create event w Hgo Hb).
    eexists. split; [reflexivity|]. cbn. repeat split.
    exists []. split; [symmetry; apply app_nil_r | constructor].
  - unfold mousePress, beginResize, set_bounds, bind, gets.
    rewrite Hgo.
    repeat (progress (cbn; rewrite ?Hb, ?Hmiss)).
    eexists. split; [reflexivity|]. cbn. repeat split.
    exists [boundsChanged None]. split; [reflexivity | repeat constructor].
Qed.

(** X12. A whole create drag.  From a handle with no gesture under way
    and [resizable] true, and either no bounds or bounds that the ray of
    the press misses: a press, then any number of moves, then a release,
    no event with the move modifier held, returns without an exception as
    long as [intersectPlane] returns a point for the rays of the moves and
    of the release.  The bounds at the end are the box that
    [boxFromDragSelect] gives for the voxel of the press and the ray of the
    release; no gesture is under way any more; and the last signal emitted
    is [boundsChangedDone] with that box and [True], the only
    [boundsChangedDone] of the drag. *)
Theorem create_drag (w : World) (press : MouseEvent)
  (moves : list MouseEvent) (release : MouseEvent) :
  resizable (self w) = true ->
  Forall (fun e => moveModifierDown (self w) e = 0)
    (press :: moves ++ [release]) ->
  idle (self w) ->
  bounds (self w) = None \/
  (exists b pt, bounds (self w) = Some b /\
                boxFaceUnderCursor (Some b) (ray press) = (pt, None)) ->
  Forall (fun e => forall dim pos,
              0 <= dim < 3 -> exists q, intersectPlane (ray e) dim pos = Ok q)
    (moves ++ [release]) ->
  exists w' nb l,
    drag press moves release w = (Ok tt, w') /\
    boxFromDragSelect (self (snd (mousePress press w))) (ray release) = Ok nb /\
    bounds (self w') = Some nb /\
    idle (self w') /\
    emitted w' = emitted w ++ l ++ [boundsChangedDone (Some nb) true] /\
    no_done l.
Proof.
  intros Hr Hall [Hsp0 Hf0] Hb Hips.
  apply (Forall_resizing _ _ Hr) in Hall.
  inversion Hall as [|? ? Hgo0 Hall']; subst.
  apply Forall_app in Hall'. destruct Hall' as [Hmoves Hrel].
  inversion Hrel as [|? ? Hgo2 _]; subst.
  apply Forall_app in Hips. destruct Hips as [Hipm Hipr].
  inversion Hipr as [|? ? Hip _]; subst.
  destruct (mousePress_creates press w Hgo0 Hb)
    as (w1 & E1 & Hcu1 & Hf1 & Hres1 & l1 & El1 & Hl1).
  destruct (mouseMoves_creating moves w1) as (w2 & E2 & Hs2 & l2 & El2 & Hl2);
    [|exact Hipm|exact Hcu1|].
  { eapply Forall_impl; [|exact Hmoves]. intros e He.
    rewrite Hres1. exact He. }
  assert (Hcu2 : create_under_way (self w2) = true)
    by (rewrite (same_but_nodes_create_under_way _ _ Hs2); exact Hcu1).
  destruct (create_under_way_box (self w2) (ray release) Hcu2 Hip)
    as (sp & nb & Hsp2 & Hnb).
  destruct (endCreate_ok release w2 nb Hnb)
    as (w' & E3 & Hb3 & Hsp3 & Hf3 & l3 & El3 & Hl3).
  exists w', nb, (l1 ++ l2 ++ l3).
  split.
  { unfold drag, bind. rewrite E1, E2.
    rewrite mouseRelease_unfold, Hsp2.
    rewrite (same_but_nodes_resizing _ _ release Hs2), Hres1, Hgo2.
    exact E3. }
  split.
  { rewrite E1. cbn [snd].
    rewrite <- (same_but_nodes_boxFromDragSelect _ _ _ Hs2). exact Hnb. }
  split; [exact Hb3|].
  split.
  { split; [exact Hsp3|]. rewrite Hf3.
    destruct Hs2 as (bn & fn & ->). cbn. congruence. }
  split; [|repeat apply no_done_app; assumption].
  rewrite El3, El2, El1. rewrite <- !app_assoc. reflexivity.
Qed.

End Drags.

Lemma resize_drag_witness :
  let e := plainEvent rayHalf (mkVector 0 0 0) in
  let e' := plainEvent rayDown (mkVector 0 0 0) in
  exists w' nb l,
    @drag collab_hit3 e [e'; e] e (start fresh444) = (Ok tt, w') /\
    boxFromDragResize (self (snd (@mousePress collab_hit3 e (start fresh444))))
      (Some box444) (ray e) = Ok nb /\
    bounds (self w') = Some nb /\
    idle (self w') /\
    emitted w' =
      emitted (start fresh444) ++ l ++ [boundsChangedDone (Some nb) false] /\
    no_done l.
Proof.
  cbv zeta.
  apply (@resize_drag collab_hit3 (start fresh444)
           (plainEvent rayHalf (mkVector 0 0 0))
           [plainEvent rayDown (mkVector 0 0 0);
            plainEvent rayHalf (mkVector 0 0 0)]
           (plainEvent rayHalf (mkVector 0 0 0))
           box444 (mkVector 1%Q 4%Q (inject_Z 2)) 3).
  - reflexivity.
  - repeat constructor.
  - reflexivity.
  - reflexivity.
  - reflexivity.
  - lia.
Defined.

Lemma resize_move_forgets_path_witness :
  let w := start dragging444 in
  let e1 := plainEvent rayDown (mkVector 0 0 0) in
  let e2 := plainEvent rayHalf (mkVector 0 0 0) in
  exists w' nb,
    boxFromDragResize (self w) (oldBounds (self w)) (ray e2) = Ok nb /\
    (@mouseMove collab_hit3 e1 ;; @mouseMove collab_hit3 e2)%handle w
      = (Ok tt, w') /\
    bounds (self w') = Some nb /\
    SelectionFaceNode.selectionBox (faceDragNode (self w')) = Some nb /\
    bounds (self (snd (@mouseMove collab_hit3 e2 w))) = Some nb.
Proof.
  cbv zeta.
  refine (@resize_move_forgets_path collab_hit3 (start dragging444)
            (plainEvent rayDown (mkVector 0 0 0))
            (plainEvent rayHalf (mkVector 0 0 0)) _ _ _);
    vm_compute; reflexivity.
Defined.

Lemma create_drag_witness :
  let e := plainEvent rayDown (mkVector 0 0 0) in
  exists w' nb l,
    @drag collab_miss e [e; e] e (start fresh444) = (Ok tt, w') /\
    @boxFromDragSelect collab_miss
      (self (snd (@mousePress collab_miss e (start fresh444)))) (ray e)
      = Ok nb /\
    bounds (self w') = Some nb /\
    idle (self w') /\
    emitted w' =
      emitted (start fresh444) ++ l ++ [boundsChangedDone (Some nb) true] /\
    no_done l.
Proof.
  cbv zeta.
  apply (@create_drag collab_miss (start fresh444)
           (plainEvent rayDown (mkVector 0 0 0))
           [plainEvent rayDown (mkVector 0 0 0);
            plainEvent rayDown (mkVector 0 0 0)]
           (plainEvent rayDown (mkVector 0 0 0))).
  - reflexivity.
  - repeat constructor.
  - split; reflexivity.
  - right. exists box444, (mkVector 0%Q 0%Q 0%Q). split; reflexivity.
  - repeat constructor;
      intros dim pos H; case_axis dim; eexists; reflexivity.
Defined.

(** ** The signals tell the bounds *)

Lemma last_signal_app (l1 l2 : list Signal) :
  last_signal (l1 ++ l2) =
    match last_signal l2 with
    | Some s => Some s
    | None => last_signal l1
    end.
Proof.
  unfold last_signal. rewrite rev_app_distr.
  destruct (rev l2); reflexivity.
Qed.

Lemma announces_quiet {A} (m : M A) :
  (forall w, emitted (snd (m w)) = emitted w /\
             bounds (self (snd (m w))) = bounds (self w)) ->
  announces m.
Proof.
  intros H w. destruct (H w) as [He Hb]. exists []. split.
  - rewrite He. symmetry. apply app_nil_r.
  - exact Hb.
Qed.

Lemma announces_bind {A B} (m : M A) (k : A -> M B) :
  announces m -> (forall a, announces (k a)) -> announces (bind m k).
Proof.
  intros Hm Hk w. unfold bind.
  destruct (Hm w) as (l1 & E1 & H1).
  destruct (m w) as [[a | e] w1]; cbn in E1, H1.
  - destruct (Hk a w1) as (l2 & E2 & H2).
    exists (l1 ++ l2). split.
    + rewrite E2, E1. symmetry. apply app_assoc.
    + rewrite last_signal_app.
      destruct (last_signal l2) as [s|]; [exact H2|].
      destruct (last_signal l1) as [s|]; congruence.
  - exists l1. cbn. auto.
Qed.

Lemma announces_set_bounds (box : option BoundingBox) :
  announces (set_bounds box).
Proof.
  intros w. unfold set_bounds, bind, gets.
  destruct (bounds_ne box (bounds (self w))) eqn:E.
  - exists [boundsChanged box]. cbn. auto.
  - exists []. cbn. split; [symmetry; apply app_nil_r | reflexivity].
Qed.

Lemma announces_done_current (isNew : bool) :
  announces (bind (gets bounds) (fun b => emit (boundsChangedDone b isNew))).
Proof.
  intros w. exists [boundsChangedDone (bounds (self w)) isNew].
  cbn. auto.
Qed.

Lemma announces_set_then_done (box : option BoundingBox) (isNew : bool) :
  announces (bind (set_bounds box)
               (fun _ => emit (boundsChangedDone box isNew))).
Proof.
  intros w. unfold bind.
  destruct (set_bounds_ok box w) as (w1 & E & Hb & _).
  destruct (set_bounds_no_done box w) as (l & El & _).
  rewrite E in El |- *. cbn in El |- *.
  exists (l ++ [boundsChangedDone box isNew]). split.
  - rewrite El. symmetry. apply app_assoc.
  - rewrite last_signal_app. cbn. symmetry. exact Hb.
Qed.

(** One step of a proof that a method announces the bounds. *)
Ltac announce_step :=
  first
    [ apply announces_set_then_done
    | apply announces_done_current
    | apply announces_set_bounds
    | apply announces_bind
    | apply announces_quiet; intro; split; reflexivity
    | match goal with
      | |- forall _, _ => intro
      | |- announces (match ?x with _ => _ end) => destruct x
      end ].

Section Announcing.
Context {collab : Collaborators}.

Lemma mousePress_announces (event : MouseEvent) :
  announces (mousePress event).
Proof.
  unfold mousePress, beginResize, beginCreate, beginMove.
  repeat announce_step.
Qed.

Lemma mouseMove_announces (event : MouseEvent) :
  announces (mouseMove event).
Proof.
  unfold mouseMove, continueCreate, continueResize, continueMove,
    updateMouseHover.
  repeat announce_step.
Qed.

Lemma mouseRelease_announces (event : MouseEvent) :
  announces (mouseRelease event).
Proof.
  unfold mouseRelease, endCreate, endResize, endMove.
  repeat announce_step.
Qed.

Lemma calls_announces (cs : list MouseCall) : announces (calls cs).
Proof.
  induction cs as [|c rest IH]; cbn [calls].
  - apply announces_quiet. intro. split; reflexivity.
  - apply announces_bind; [|intros _; exact IH].
    destruct c; cbn [call];
      [apply mousePress_announces | apply mouseMove_announces
       | apply mouseRelease_announces].
Qed.

(** X13. The signals keep an observer in step with the bounds.  For a
    press, a move and a release alike, and for any sequence of them,
    whatever the state of the handle and whether a call returns or
    raises: if nothing is emitted the bounds are as they were before,
    and otherwise the last signal emitted carries the bounds as they are
    afterwards. *)
Theorem signals_announce_bounds (event : MouseEvent) (cs : list MouseCall) :
  announces (mousePress event) /\
  announces (mouseMove event) /\
  announces (mouseRelease event) /\
  announces (calls cs).
Proof.
  split; [apply mousePress_announces|].
  split; [apply mouseMove_announces|].
  split; [apply mouseRelease_announces | apply calls_announces].
Qed.

End Announcing.

(** ** A handle that is not resizable *)

Section NotResizable.
Context {collab : Collaborators}.

Lemma call_move_mode (c : MouseCall) (w : World) :
  resizable (self w) = false ->
  exists w',
    call c w = (Ok tt, w') /\
    same_but_nodes (self w) (self w') /\
    bounds (self w') = bounds (self w) /\
    emitted w' = emitted w.
Proof.
  intros Hr.
  assert (Hgo : forall e, resizing (self w) e = false)
    by (intro e; apply resizing_false; left; exact Hr).
  destruct c as [e | e | e]; cbn [call].
  - unfold mousePress, beginMove, bind, gets. rewrite Hgo.
    exists w. repeat split. apply same_but_nodes_refl.
  - destruct (mouseMove_no_gesture e w (or_introl (Hgo e))) as [n E].
    rewrite E. eexists. split; [reflexivity|]. cbn. repeat split.
    apply same_but_faceDragNode.
  - unfold mouseRelease, endMove, bind, gets. rewrite Hgo.
    exists w. repeat split. apply same_but_nodes_refl.
Qed.

Lemma calls_move_mode (cs : list MouseCall) (w : World) :
  resizable (self w) = false ->
  exists w',
    calls cs w = (Ok tt, w') /\
    bounds (self w') = bounds (self w) /\
    emitted w' = emitted w.
Proof.
  revert w. induction cs as [|c rest IH]; intros w Hr.
  - exists w. repeat split.
  - destruct (call_move_mode c w Hr) as (w1 & E1 & (bn & fn & Hs) & Hb1 & He1).
    destruct (IH w1) as (w' & E2 & Hb2 & He2).
    { rewrite Hs. exact Hr. }
    exists w'. cbn. unfold bind. rewrite E1.
    split; [exact E2|]. split; congruence.
Qed.

(** X14. A handle that is not resizable keeps its box.  If the assignment
    [resizable = False] returns, the handle has bounds, and after any
    sequence of presses, moves and releases, with any modifiers, it has
    the same bounds; no call raises and no signal is emitted. *)
Theorem not_resizable_keeps_bounds (cs : list MouseCall) (w w1 : World) :
  set_resizable false w = (Ok tt, w1) ->
  exists w' b,
    calls cs w1 = (Ok tt, w') /\
    bounds (self w) = Some b /\
    bounds (self w') = Some b /\
    emitted w' = emitted w.
Proof.
  unfold set_resizable, bind, gets. intros H.
  destruct (bounds (self w)) as [b|] eqn:Hb; cbn in H; [|discriminate].
  inversion H; subst w1; clear H.
  match goal with
  | |- context [calls cs ?v] =>
      destruct (calls_move_mode cs v eq_refl) as (w' & E & Hb' & He')
  end.
  exists w', b. split; [exact E|]. split; [reflexivity|].
  split; [rewrite Hb'; exact Hb | exact He'].
Qed.

End NotResizable.

Lemma not_resizable_keeps_bounds_witness :
  let e := plainEvent rayHalf (mkVector 0 0 0) in
  let w := start fresh444 in
  exists w' b,
    @calls collab_hit3 [Press e; Move e; Release e; Move e]
      (snd (set_resizable false w)) = (Ok tt, w') /\
    bounds (self w) = Some b /\
    bounds (self w') = Some b /\
    emitted w' = emitted w.
Proof.
  cbv zeta.
  apply (@not_resizable_keeps_bounds collab_hit3). reflexivity.
Defined.
